(** * The code-execution endpoints of the VipuDevAI backend

    A shallow embedding of the two handlers of [server/routes.ts] that run
    user code: [POST /api/run] (one file, run by an interpreter on the host)
    and [POST /api/run-project] (several files, run in a docker container).

    Definitions:
    - [Js]: the JSON values a request body carries and the JavaScript
      operators the handlers apply to them;
    - [Path]: Node's POSIX [path.join], [path.normalize], [path.dirname];
    - [Eff]: the effects of a handler (scratch file system, child processes,
      HTTP responses, exceptions) as a state-and-exception monad;
    - [Node]: what the handlers call from [fs] and [child_process], and what
      a child process reports back;
    - [Routes]: the two handlers, statement by statement;
    - [Samples], [Props]: hosts, requests and predicates of the statements.

    Results:
    - [StringFacts], [PathFacts], [Facts]: lemmas on strings, on paths and
      on the handlers;
    - [DirectRunner], [ContainerRunner], [Runners]: the properties of the
      single-file runner, of the project runner, and of both. *)

From Stdlib Require Import Ascii NArith ZArith.
From stdpp Require Import base option list strings gmap sorting.

Local Open Scope Z_scope.

#[local] Set Warnings "-register-all".

(** ** JSON values and JavaScript operators *)

Module Js.

(** A request body is what [express.json()] parsed; a field that is not
    there reads as [undefined].  Numbers are kept as integers: the handlers
    only test them for truthiness or hand an exit code through. *)
Inductive JsVal : Type :=
| JUndefined
| JNull
| JBool (b : bool)
| JNum (n : Z)
| JStr (s : string)
| JArr (items : list JsVal)
| JObj (fields : list (string * JsVal)).

Inductive JsError : Type :=
| TypeError (what : string)
| SystemError (code : string).

(** [!!v] *)
Definition truthy (v : JsVal) : bool :=
  match v with
  | JUndefined | JNull => false
  | JBool b => b
  | JNum n => negb (n =? 0)
  | JStr s => negb (String.eqb s "")
  | JArr _ | JObj _ => true
  end.

(** [a || b] *)
Definition or_else (a b : JsVal) : JsVal := if truthy a then a else b.

(** [a ?? b] *)
Definition nullish (a b : JsVal) : JsVal :=
  match a with
  | JUndefined | JNull => b
  | _ => a
  end.

(** [Array.isArray(v)] *)
Definition isArray (v : JsVal) : bool :=
  match v with JArr _ => true | _ => false end.

(** [v === "s"] *)
Definition strict_eq_str (v : JsVal) (s : string) : bool :=
  match v with JStr t => String.eqb t s | _ => false end.

Fixpoint assoc (k : string) (fields : list (string * JsVal)) : JsVal :=
  match fields with
  | [] => JUndefined
  | (k', v) :: rest => if String.eqb k k' then v else assoc k rest
  end.

(** [v.k] for a key [k] that no prototype defines ([path], [content],
    [code], [killed], ...): a property of an object, [undefined] on any
    other value, and a [TypeError] on [null] and [undefined]. *)
Definition get (v : JsVal) (k : string) : JsError + JsVal :=
  match v with
  | JUndefined | JNull => inl (TypeError "Cannot read properties")
  | JObj fields => inr (assoc k fields)
  | _ => inr JUndefined
  end.

(** [v?.k] *)
Definition get_opt (v : JsVal) (k : string) : JsVal :=
  match get v k with inl _ => JUndefined | inr x => x end.

(** ASCII letters only; every other character is left as it is. *)
Definition lower_char (c : ascii) : ascii :=
  let n := N_of_ascii c in
  if ((65 <=? n) && (n <=? 90))%N then ascii_of_N (n + 32) else c.

Fixpoint toLowerCase (s : string) : string :=
  match s with
  | EmptyString => EmptyString
  | String c rest => String (lower_char c) (toLowerCase rest)
  end.

Definition is_sep (c : ascii) : bool :=
  (Ascii.eqb c "/" || Ascii.eqb c "\")%char.

(** [s.replace(/^[/\\]+/, "")]: the leading run of [/] and [\] is cut. *)
Fixpoint strip_leading_seps (s : string) : string :=
  match s with
  | EmptyString => EmptyString
  | String c rest => if is_sep c then strip_leading_seps rest else s
  end.

End Js.

(** ** Node's [path] module, POSIX flavour *)

Module Path.

Definition is_slash (c : ascii) : bool := Ascii.eqb c "/"%char.

(** The segments between the [/] of a path: ["a//b"] gives [a], [""], [b]. *)
Fixpoint split (s : string) : list string :=
  match s with
  | EmptyString => [EmptyString]
  | String c rest =>
      if is_slash c then EmptyString :: split rest
      else match split rest with
           | seg :: segs => String c seg :: segs
           | [] => [String c EmptyString]
           end
  end.

Fixpoint join_segments (segs : list string) : string :=
  match segs with
  | [] => ""
  | [seg] => seg
  | seg :: rest => seg +:+ "/" +:+ join_segments rest
  end.

(** One step of [normalizeString]; [stack] holds the segments kept so far,
    the last one first. *)
Definition push_segment (allowAboveRoot : bool) (stack : list string)
    (seg : string) : list string :=
  if String.eqb seg "" || String.eqb seg "." then stack
  else if String.eqb seg ".." then
    match stack with
    | top :: below =>
        if String.eqb top ".." then seg :: stack else below
    | [] => if allowAboveRoot then [seg] else []
    end
  else seg :: stack.

Definition normalize_segments (allowAboveRoot : bool) (segs : list string)
    : list string :=
  rev (fold_left (push_segment allowAboveRoot) segs []).

Definition isAbsolute (p : string) : bool :=
  match p with String c _ => is_slash c | EmptyString => false end.

(** Whether the last character of [p] is a slash. *)
Fixpoint trailing_slash (p : string) : bool :=
  match p with
  | EmptyString => false
  | String c EmptyString => is_slash c
  | String _ rest => trailing_slash rest
  end.

(** [path.normalize(p)] *)
Definition normalize (p : string) : string :=
  if String.eqb p "" then "."
  else
    let body :=
      join_segments (normalize_segments (negb (isAbsolute p)) (split p)) in
    if String.eqb body "" then
      if isAbsolute p then "/" else if trailing_slash p then "./" else "."
    else
      (if isAbsolute p then "/" else "") +:+ body
        +:+ (if trailing_slash p then "/" else "").

(** [path.join(...parts)]: the non-empty parts, glued with [/], normalized. *)
Definition join (parts : list string) : string :=
  match filter (λ s, s ≠ "") parts with
  | [] => "."
  | kept => normalize (join_segments kept)
  end.

Fixpoint drop_while (f : ascii → bool) (s : string) : string :=
  match s with
  | EmptyString => EmptyString
  | String c rest => if f c then drop_while f rest else s
  end.

(** [path.dirname(p)]: scanning from the end, trailing slashes are
    skipped, then the last segment; what is left of the slash found
    (which is not the first character) is the result. *)
Definition dirname (p : string) : string :=
  match p with
  | EmptyString => "."
  | String c0 rest =>
      let scanned :=
        drop_while (λ c, negb (is_slash c))
          (drop_while is_slash (String.rev rest)) in
      match scanned with
      | EmptyString => if is_slash c0 then "/" else "."
      | String _ before =>
          if is_slash c0 && String.eqb before "" then "//"
          else String c0 (String.rev before)
      end
  end.

End Path.

(** ** Effects of a handler *)

Module Eff.
Import Js.

(** How a child process was started. *)
Inductive Launch : Type :=
| ViaShell (cmdline : string) (timeout_ms : Z)
| Spawned (file : string) (args : list JsVal).

(** [res.status(s).json(body)] *)
Record Response : Type := { status : Z; body : JsVal }.

(** What a handler can touch: the directories and files of the scratch
    area, the child processes started, the signals sent to the child, and
    the responses written. *)
Record World : Type := {
  dirs : gset string;
  files : gmap string JsVal;
  launched : list Launch;
  signals : list string;
  sent : list Response
}.

Definition pristine : World :=
  {| dirs := ∅; files := ∅; launched := []; signals := []; sent := [] |}.

(** A computation runs on a world and completes normally or throws. *)
Definition Eff (A : Type) : Type := World → (JsError + A) * World.

Definition ret {A} (a : A) : Eff A := λ w, (inr a, w).

Definition throw {A} (e : JsError) : Eff A := λ w, (inl e, w).

Definition bind {A B} (c : Eff A) (k : A → Eff B) : Eff B :=
  λ w, match c w with
       | (inr a, w') => k a w'
       | (inl e, w') => (inl e, w')
       end.

(** [try { body } catch (e) { handler }] *)
Definition try_catch {A} (body : Eff A) (handler : JsError → Eff A) : Eff A :=
  λ w, match body w with
       | (inr a, w') => (inr a, w')
       | (inl e, w') => handler e w'
       end.

(** Runs [c] and hands back how it completed, without throwing. *)
Definition attempt {A} (c : Eff A) : Eff (JsError + A) :=
  λ w, let (r, w') := c w in (inr r, w').

Definition lift {A} (r : JsError + A) : Eff A :=
  match r with inl e => throw e | inr a => ret a end.

Definition modify (f : World → World) : Eff unit := λ w, (inr tt, f w).

(** The statements of a handler are chained with [x ← c; k] and [c;; k]. *)
#[global] Instance eff_ret : MRet Eff := @ret.
#[global] Instance eff_bind : MBind Eff := λ A B k c, bind c k.

End Eff.


(** ** [fs], [child_process] and the response object *)

Module Node.
Import Js Eff.

(** What the host decides: the temporary directory, the six characters
    [mkdtempSync] appends (none when the directory cannot be made), the
    paths at which [mkdirSync] and [writeFileSync] fail, and whether
    starting a child process throws at the call. *)
Record Env : Type := {
  tmpdir : string;
  fresh : option string;
  fs_refuses : string → bool;
  launch_throws : bool
}.

(** [p] is [dir] or lies below it. *)
Definition within (dir p : string) : bool :=
  String.eqb p dir || String.prefix (dir +:+ "/") p.

Section WithEnv.
Variable env : Env.

(** [fs.mkdtempSync(prefix)] *)
Definition mkdtempSync (prefix : string) : Eff string :=
  match fresh env with
  | None => throw (SystemError "EACCES")
  | Some suffix =>
      let dir := prefix +:+ suffix in
      modify (λ w, {| dirs := {[dir]} ∪ dirs w; files := files w;
                      launched := launched w; signals := signals w;
                      sent := sent w |});;
      ret dir
  end.

(** [fs.mkdirSync(p, { recursive: true })]; of the directories made, the
    world keeps [p]. *)
Definition mkdirSync (p : string) : Eff unit :=
  if fs_refuses env p then throw (SystemError "EACCES")
  else modify (λ w, {| dirs := {[p]} ∪ dirs w; files := files w;
                       launched := launched w; signals := signals w;
                       sent := sent w |}).

(** [fs.writeFileSync(p, data)] *)
Definition writeFileSync (p : string) (data : JsVal) : Eff unit :=
  if fs_refuses env p then throw (SystemError "ENOSPC")
  else modify (λ w, {| dirs := dirs w; files := <[p := data]> (files w);
                       launched := launched w; signals := signals w;
                       sent := sent w |}).

(** [child_process.exec(cmdline, { timeout }, callback)] *)
Definition exec (cmdline : string) (timeout_ms : Z) : Eff unit :=
  if launch_throws env then throw (SystemError "EAGAIN")
  else modify (λ w, {| dirs := dirs w; files := files w;
                       launched := launched w ++ [ViaShell cmdline timeout_ms];
                       signals := signals w; sent := sent w |}).

(** [child_process.spawn(file, args)] *)
Definition spawn (file : string) (args : list JsVal) : Eff unit :=
  if launch_throws env then throw (SystemError "EAGAIN")
  else modify (λ w, {| dirs := dirs w; files := files w;
                       launched := launched w ++ [Spawned file args];
                       signals := signals w; sent := sent w |}).

End WithEnv.

(** [fs.rmSync(dir, { recursive: true, force: true })] *)
Definition rmSync (dir : string) : Eff unit :=
  modify (λ w, {| dirs := filter (λ p, within dir p = false) (dirs w);
                  files := filter (λ kv, within dir kv.1 = false) (files w);
                  launched := launched w; signals := signals w;
                  sent := sent w |}).

(** [child.kill(signal)] *)
Definition kill (signal : string) : Eff unit :=
  modify (λ w, {| dirs := dirs w; files := files w; launched := launched w;
                  signals := signals w ++ [signal]; sent := sent w |}).

(** [res.status(s).json(body)]; [res.json(body)] is status 200. *)
Definition res_json (s : Z) (b : JsVal) : Eff unit :=
  modify (λ w, {| dirs := dirs w; files := files w; launched := launched w;
                  signals := signals w;
                  sent := sent w ++ [{| status := s; body := b |}] |}).

(** *** The callback of [exec]

    How the shell child ended, and what [exec] then hands to its callback
    (the [exithandler] of [child_process]): no error for exit code 0, else an
    error object whose [code] is the exit code, [null] after a signal, or
    the error name when the shell could not be started; [killed] is set when
    [exec] itself killed the child, which it does with [SIGTERM] when the
    timeout runs out. *)
Inductive ExecEnd : Type :=
| Exited (code : Z) (out err : string)
| Signalled (signal : string) (out err : string)
| DeadlinePassed (out err : string)
| NotStarted (errname : string).

Definition exec_error (code : JsVal) (killed : bool) (signal : JsVal) : JsVal :=
  JObj [("code", code); ("killed", JBool killed); ("signal", signal)].

Definition exec_callback_args (e : ExecEnd) : JsVal * string * string :=
  match e with
  | Exited code out err =>
      if code =? 0 then (JNull, out, err)
      else (exec_error (JNum code) false JNull, out, err)
  | Signalled sig out err => (exec_error JNull false (JStr sig), out, err)
  | DeadlinePassed out err => (exec_error JNull true (JStr "SIGTERM"), out, err)
  | NotStarted errname => (exec_error (JStr errname) false JNull, "", "")
  end.

(** *** The events of a spawned child

    [data] chunks of the two streams, [close] with the exit code ([null]
    after a signal), [error] when the program could not be started, and the
    timer set with [setTimeout] running out. *)
Inductive ChildEvent : Type :=
| EvStdout (chunk : string)
| EvStderr (chunk : string)
| EvClose (code : JsVal)
| EvError (errname : string)
| EvTimer.

End Node.

(** ** The two handlers of [server/routes.ts] *)

Module Routes.
Import Js Eff Node.

Definition dquote : string := String "034"%char "".

(** [{ error: msg }] *)
Definition error_body (msg : string) : JsVal := JObj [("error", JStr msg)].

(** *** [POST /api/run] *)

Definition run_lang (language : JsVal) : string :=
  if strict_eq_str language "python" then "python" else "javascript".

Definition run_ext (lang : string) : string :=
  if String.eqb lang "python" then ".py" else ".js".

Definition run_cmd (lang : string) : string :=
  if String.eqb lang "python" then "python3" else "node".

(** The callback handed to [exec]; [dir] is the scratch directory of the
    request. *)
Definition run_callback (dir : string) (error : JsVal) (stdout stderr : string)
    : Eff unit :=
  res_json 200
    (JObj [("stdout", JStr stdout);
           ("stderr", JStr stderr);
           ("exitCode", or_else (get_opt error "code") (JNum 0));
           ("timedOut", JBool (truthy (get_opt error "killed")))]);;
  rmSync dir.

(** *** [POST /api/run-project] *)

(** [v.replace(/^[/\\]+/, "")] *)
Definition call_replace (v : JsVal) : JsError + string :=
  match v with
  | JStr s => inr (strip_leading_seps s)
  | JUndefined | JNull => inl (TypeError "Cannot read properties")
  | _ => inl (TypeError "replace is not a function")
  end.

(** [v.toLowerCase()] *)
Definition call_toLowerCase (v : JsVal) : JsError + string :=
  match v with
  | JStr s => inr (toLowerCase s)
  | JUndefined | JNull => inl (TypeError "Cannot read properties")
  | _ => inl (TypeError "toLowerCase is not a function")
  end.

(** [(f.path || "").replace(/^[/\\]+/, "")] *)
Definition safe_path (f : JsVal) : JsError + string :=
  match get f "path" with
  | inl e => inl e
  | inr p => call_replace (or_else p (JStr ""))
  end.

(** The same line in the earlier copy of the file:
    [f.path.replace(/^[/\\]+/, "")]. *)
Definition safe_path_earlier (f : JsVal) : JsError + string :=
  match get f "path" with
  | inl e => inl e
  | inr p => call_replace p
  end.

(** [path.join(tempDir, safe || "main.js")] *)
Definition dest_of (tempDir safe : string) : string :=
  Path.join [tempDir; if String.eqb safe "" then "main.js" else safe].

Definition project_image (lang : string) : string :=
  if String.eqb lang "python" then "python:3.11" else "node:18".

Definition project_defaultCmd (lang : string) : string :=
  if String.eqb lang "python" then "python main.py" else "node main.js".

Definition dockerArgs (tempDir image : string) (command : JsVal)
    (defaultCmd : string) : list JsVal :=
  [JStr "run"; JStr "--rm";
   JStr "--network"; JStr "none";
   JStr "--memory"; JStr "512m";
   JStr "--cpus"; JStr "1";
   JStr "-v"; JStr (tempDir +:+ ":/app");
   JStr "-w"; JStr "/app";
   JStr image;
   JStr "bash"; JStr "-lc";
   or_else command (JStr defaultCmd)].

(** What the listeners of one request share: the scratch directory, the
    image, the two accumulators, and whether the timer is still set. *)
Record ProjectRun : Type := {
  tempDir : string;
  image : string;
  stdout : string;
  stderr : string;
  timer : bool
}.

(** The [catch] block; [dir] is [tempDir] as the block finds it, still [""]
    when [mkdtempSync] threw. *)
Definition project_catch (dir : string) : Eff (option ProjectRun) :=
  (if String.eqb dir "" then mret tt else rmSync dir);;
  res_json 500 (error_body "Docker execution failed");;
  mret None.

(** One event of the child, given to the listener registered for it.  No
    listener is registered for [error], so that event is thrown. *)
Definition on_event (ev : ChildEvent) (st : ProjectRun) : Eff ProjectRun :=
  match ev with
  | EvStdout d =>
      mret {| tempDir := tempDir st; image := image st;
              stdout := stdout st +:+ d; stderr := stderr st;
              timer := timer st |}
  | EvStderr d =>
      mret {| tempDir := tempDir st; image := image st;
              stdout := stdout st; stderr := stderr st +:+ d;
              timer := timer st |}
  | EvTimer =>
      (if timer st then kill "SIGKILL" else mret tt);;
      mret {| tempDir := tempDir st; image := image st;
              stdout := stdout st; stderr := stderr st; timer := false |}
  | EvClose code =>
      rmSync (tempDir st);;
      res_json 200
        (JObj [("stdout", JStr (stdout st));
               ("stderr", JStr (stderr st));
               ("exitCode", code);
               ("imageUsed", JStr (image st))]);;
      mret {| tempDir := tempDir st; image := image st;
              stdout := stdout st; stderr := stderr st; timer := false |}
  | EvError errname => throw (SystemError errname)
  end.

Fixpoint deliver (evs : list ChildEvent) (st : ProjectRun) : Eff ProjectRun :=
  match evs with
  | [] => mret st
  | ev :: rest => st' ← on_event ev st; deliver rest st'
  end.




Section Handlers.
Variable env : Env.

(** The handler up to the call of [exec]; [Some dir] when the callback is
    pending. *)
Definition run_handler (reqbody : JsVal) : Eff (option string) :=
  code ← lift (get reqbody "code");
  language ← lift (get reqbody "language");
  if negb (truthy code) then
    res_json 400 (error_body "Code required");; mret None
  else
    let lang := run_lang language in
    let ext := run_ext lang in
    let cmd := run_cmd lang in
    try_catch
      (dir ← mkdtempSync env (Path.join [tmpdir env; "vipurun-"]);
       let filePath := Path.join [dir; "main" +:+ ext] in
       writeFileSync env filePath code;;
       exec env (cmd +:+ " " +:+ dquote +:+ filePath +:+ dquote) 8000;;
       mret (Some dir))
      (λ _, res_json 500 (error_body "Failed to execute");; mret None).

(** One request from start to end: the handler, then the callback with
    what [exec] reports for the way the child ended. *)
Definition run_attempt (reqbody : JsVal) (child : ExecEnd) : Eff unit :=
  pending ← run_handler reqbody;
  match pending with
  | None => mret tt
  | Some dir =>
      let '(error, out, err) := exec_callback_args child in
      run_callback dir error out err
  end.

(** The body of [for (const f of files)]. *)
Definition write_entry (sanitize : JsVal → JsError + string)
    (dir : string) (f : JsVal) : Eff unit :=
  safe ← lift (sanitize f);
  let dest := dest_of dir safe in
  mkdirSync env (Path.dirname dest);;
  content ← lift (get f "content");
  writeFileSync env dest (nullish content (JStr "")).

Fixpoint write_entries (sanitize : JsVal → JsError + string)
    (dir : string) (fs : list JsVal) : Eff unit :=
  match fs with
  | [] => mret tt
  | f :: rest => write_entry sanitize dir f;; write_entries sanitize dir rest
  end.

Definition items (v : JsVal) : list JsVal :=
  match v with JArr l => l | _ => [] end.

(** The handler up to the registration of the listeners; [Some st] when a
    child was spawned and its events are awaited. *)
Definition run_project_handler_with (sanitize : JsVal → JsError + string)
    (reqbody : JsVal) : Eff (option ProjectRun) :=
  files ← lift (get reqbody "files");
  language ← lift (get reqbody "language");
  command ← lift (get reqbody "command");
  if negb (truthy files) || negb (isArray files) then
    res_json 400 (error_body "files[] required");; mret None
  else
    lang ← lift (call_toLowerCase (or_else language (JStr "node")));
    let image := project_image lang in
    let defaultCmd := project_defaultCmd lang in
    made ← attempt (mkdtempSync env (Path.join [tmpdir env; "vipuproject-"]));
    match made with
    | inl _ => project_catch ""
    | inr dir =>
        try_catch
          (write_entries sanitize dir (items files);;
           spawn env "docker" (dockerArgs dir image command defaultCmd);;
           mret (Some {| tempDir := dir; image := image;
                         stdout := ""; stderr := ""; timer := true |}))
          (λ _, project_catch dir)
    end.

Definition run_project_handler : JsVal → Eff (option ProjectRun) :=
  run_project_handler_with safe_path.

(** The handler as the earlier copy of the file has it. *)
Definition run_project_handler_earlier : JsVal → Eff (option ProjectRun) :=
  run_project_handler_with safe_path_earlier.

(** One request from start to end: the handler, then the events of the
    child in the order they arrive. *)
Definition run_project_attempt (reqbody : JsVal) (evs : list ChildEvent)
    : Eff unit :=
  pending ← run_project_handler reqbody;
  match pending with
  | None => mret tt
  | Some st => deliver evs st;; mret tt
  end.

End Handlers.

End Routes.

(** ** Requests and hosts used in the examples *)

Module Samples.
Import Js Eff Node Routes.

(** A host with [/tmp] as temporary directory where nothing fails. *)
Definition host : Env :=
  {| tmpdir := "/tmp"; fresh := Some "Ab12Cd";
     fs_refuses := λ _, false; launch_throws := false |}.

Definition file (path content : string) : JsVal :=
  JObj [("path", JStr path); ("content", JStr content)].

Definition run_request (code language : string) : JsVal :=
  JObj [("code", JStr code); ("language", JStr language)].

Definition project_request (fs : list JsVal) (language : string) : JsVal :=
  JObj [("files", JArr fs); ("language", JStr language)].

(** The same host on a day when the source file cannot be written. *)
Definition host_full_disk : Env :=
  {| tmpdir := "/tmp"; fresh := Some "Ab12Cd";
     fs_refuses := λ p, String.eqb p "/tmp/vipurun-Ab12Cd/main.py";
     launch_throws := false |}.

(** The result object of [/api/run]. *)
Definition run_result (stdout stderr : string) (exitCode : JsVal)
    (timedOut : bool) : Response :=
  {| status := 200;
     body := JObj [("stdout", JStr stdout); ("stderr", JStr stderr);
                   ("exitCode", exitCode); ("timedOut", JBool timedOut)] |}.


Definition error_response (s : Z) (msg : string) : Response :=
  {| status := s; body := error_body msg |}.

Definition python_run : JsVal := run_request "print(1)" "python".

Definition ruby_project : JsVal :=
  project_request [file "main.js" "console.log(1)"] "ruby".


(** The run the listeners of [ruby_project] start from. *)
Definition ruby_run : ProjectRun :=
  {| tempDir := "/tmp/vipuproject-Ab12Cd"; image := "node:18";
     stdout := ""; stderr := ""; timer := true |}.

End Samples.

(** ** Predicates the statements below use *)

Module Props.
Import Js Eff Node Routes.

(** A step that starts no process, sends nothing, signals nothing and
    removes no directory. *)
Definition quiet (w w' : World) : Prop :=
  launched w' = launched w ∧ sent w' = sent w ∧ signals w' = signals w ∧
  dirs w ⊆ dirs w'.

(** The request was turned down as invalid input: status 400 with
    [files[] required], and the world is otherwise as it was. *)
Definition rejected_as_invalid (env : Env) (reqbody : JsVal) : Prop :=
  ∀ w, run_project_handler env reqbody w =
         (inr None,
          {| dirs := dirs w; files := files w; launched := launched w;
             signals := signals w;
             sent := sent w ++
               [{| status := 400; body := error_body "files[] required" |}] |}).

(** [files] is not a non-empty sequence: missing, not an array, or an
    empty array. *)
Definition not_a_nonempty_sequence (files : JsVal) : Prop :=
  match files with
  | JArr (_ :: _) => False
  | _ => True
  end.

(** The child was started directly, its arguments handed over one by
    one; the other way is a command line that a shell on the host reads. *)
Definition discrete_arguments (l : Launch) : Prop :=
  match l with
  | Spawned _ _ => True
  | ViaShell _ _ => False
  end.

(** A string of separators only; the empty string is one. *)
Fixpoint only_seps (s : string) : bool :=
  match s with
  | EmptyString => true
  | String c rest => is_sep c && only_seps rest
  end.

Fixpoint no_slash (s : string) : bool :=
  match s with
  | EmptyString => true
  | String c rest => negb (Path.is_slash c) && no_slash rest
  end.

(** A segment that [path.normalize] keeps as it is. *)
Definition proper_segment (seg : string) : bool :=
  no_slash seg && negb (String.eqb seg "") && negb (String.eqb seg ".")
    && negb (String.eqb seg "..").

(** An absolute path in normal form, other than the root: a slash, then
    proper segments with one slash between them. *)
Definition clean_absolute (dir : string) : bool :=
  match dir with
  | String c rest => Path.is_slash c && forallb proper_segment (Path.split rest)
  | EmptyString => false
  end.

(** The segments [path.normalize] does not drop when none is [..]: all
    but the empty ones and [.]. *)
Fixpoint keep (segs : list string) : list string :=
  match segs with
  | [] => []
  | seg :: rest =>
      if String.eqb seg "" || String.eqb seg "." then keep rest
      else seg :: keep rest
  end.

(** No segment of the path is [..]. *)
Definition no_dotdot (p : string) : bool :=
  forallb (λ seg, negb (String.eqb seg "..")) (Path.split p).

End Props.

(** ** More string operations of JavaScript *)

Module Str.

Fixpoint skip (n : nat) (s : string) : string :=
  match n, s with
  | O, _ => s
  | S n', String _ rest => skip n' rest
  | S _, EmptyString => EmptyString
  end.

(** [s.replace(pat, "")] for a string [pat]: the first occurrence of [pat]
    is cut, wherever it is. *)
Fixpoint remove_first (pat s : string) : string :=
  if String.prefix pat s then skip (String.length pat) s
  else match s with
       | EmptyString => EmptyString
       | String c rest => String c (remove_first pat rest)
       end.

(** [s.split(sep)] for a one-character [sep]. *)
Fixpoint split_on (sep : ascii) (s : string) : list string :=
  match s with
  | EmptyString => [EmptyString]
  | String c rest =>
      if Ascii.eqb c sep then EmptyString :: split_on sep rest
      else match split_on sep rest with
           | seg :: segs => String c seg :: segs
           | [] => [String c EmptyString]
           end
  end.

(** [s.split(sep).pop()] *)
Definition last_segment (sep : ascii) (s : string) : string :=
  List.last (split_on sep s) EmptyString.

(** [s.endsWith(t)], which is how a pattern [t$] matches. *)
Definition ends_with (t s : string) : bool :=
  String.prefix (String.rev t) (String.rev s).

Fixpoint all_chars (f : ascii → bool) (s : string) : bool :=
  match s with
  | EmptyString => true
  | String c rest => f c && all_chars f rest
  end.

Fixpoint keep_chars (f : ascii → bool) (s : string) : string :=
  match s with
  | EmptyString => EmptyString
  | String c rest => if f c then String c (keep_chars f rest)
                     else keep_chars f rest
  end.

(** [\w] *)
Definition is_word_char (c : ascii) : bool :=
  let n := N_of_ascii c in
  ((48 <=? n) && (n <=? 57) || (65 <=? n) && (n <=? 90)
   || (97 <=? n) && (n <=? 122) || (n =? 95))%N.

Definition newline : string := String "010"%char "".

(** [bytes.toString("hex")] *)
Definition hex_digit (n : N) : ascii :=
  match n with
  | 0 => "0" | 1 => "1" | 2 => "2" | 3 => "3" | 4 => "4" | 5 => "5"
  | 6 => "6" | 7 => "7" | 8 => "8" | 9 => "9" | 10 => "a" | 11 => "b"
  | 12 => "c" | 13 => "d" | 14 => "e" | _ => "f"
  end%N%char.

Fixpoint toString_hex (bytes : list ascii) : string :=
  match bytes with
  | [] => EmptyString
  | b :: rest =>
      String (hex_digit (N_of_ascii b / 16))
        (String (hex_digit (N_of_ascii b mod 16)) (toString_hex rest))
  end.

End Str.

(** ** The admin login of [server/routes.ts] *)

Module Auth.
Import Js Eff.

(** [process.env.ADMIN_USERNAME] and [process.env.ADMIN_PASSWORD]. *)
Record Config : Type := {
  env_ADMIN_USERNAME : option string;
  env_ADMIN_PASSWORD : option string
}.

(** [process.env.X || fallback] *)
Definition env_or (v : option string) (fallback : string) : string :=
  match v with
  | Some s => if String.eqb s "" then fallback else s
  | None => fallback
  end.

Definition ADMIN_USERNAME (cfg : Config) : string :=
  env_or (env_ADMIN_USERNAME cfg) "admin".

Definition ADMIN_PASSWORD (cfg : Config) : string :=
  env_or (env_ADMIN_PASSWORD cfg) "admin123".

(** [crypto.randomBytes(32).toString("hex")]; [random] is what
    [randomBytes] returned. *)
Definition generateToken (random : list ascii) : string :=
  Str.toString_hex random.

(** [authHeader?.replace("Bearer ", "")] *)
Definition token_of (authorization : option string) : option string :=
  Str.remove_first "Bearer " <$> authorization.

(** [token && tokens.has(token)], also [if (token)] *)
Definition present (token : option string) : option string :=
  match token with
  | Some t => if String.eqb t "" then None else Some t
  | None => None
  end.

(** [POST /api/auth/login]: the response and the set [tokens] afterwards;
    reading the fields of a missing body throws. *)
Definition login (cfg : Config) (random : list ascii) (reqbody : JsVal)
    (tokens : gset string) : (JsError + Response) * gset string :=
  match get reqbody "username", get reqbody "password" with
  | inr username, inr password =>
      if strict_eq_str username (ADMIN_USERNAME cfg)
         && strict_eq_str password (ADMIN_PASSWORD cfg)
      then
        let token := generateToken random in
        (inr {| status := 200;
                body := JObj [("token", JStr token);
                              ("message", JStr "Login successful")] |},
         {[token]} ∪ tokens)
      else
        (inr {| status := 401;
                body := JObj [("error", JStr "Invalid credentials")] |},
         tokens)
  | inl e, _ | _, inl e => (inl e, tokens)
  end.

(** [GET /api/auth/verify] *)
Definition verify (authorization : option string) (tokens : gset string)
    : Response :=
  match present (token_of authorization) with
  | Some token =>
      if decide (token ∈ tokens)
      then {| status := 200; body := JObj [("valid", JBool true)] |}
      else {| status := 401; body := JObj [("error", JStr "Invalid token")] |}
  | None => {| status := 401; body := JObj [("error", JStr "Invalid token")] |}
  end.

(** [POST /api/auth/logout] *)
Definition logout (authorization : option string) (tokens : gset string)
    : Response * gset string :=
  ({| status := 200; body := JObj [("message", JStr "Logged out")] |},
   match present (token_of authorization) with
   | Some token => tokens ∖ {[token]}
   | None => tokens
   end).

End Auth.

(** ** The two zip endpoints of [server/routes.ts] *)

Module Zip.
Import Js Eff.

(** [[^\w.\-]] is every character but these. *)
Definition is_name_char (c : ascii) : bool :=
  (Str.is_word_char c || Ascii.eqb c "." || Ascii.eqb c "-")%char.

(** [filename.replace(/[^\w.\-]/g, "")] *)
Definition clean_name (filename : string) : string :=
  Str.keep_chars is_name_char filename.

(** [v.split(".").pop()] *)
Definition call_split_pop (v : JsVal) : JsError + string :=
  match v with
  | JStr s => inr (Str.last_segment "." s)
  | JUndefined | JNull => inl (TypeError "Cannot read properties")
  | _ => inl (TypeError "split is not a function")
  end.

(** [language === "python" ? "py" : "js"] *)
Definition language_ext (language : JsVal) : string :=
  if strict_eq_str language "python" then "py" else "js".

(** [(filename && filename.split(".").pop()) || (...)] *)
Definition zip_ext (filename language : JsVal) : JsError + string :=
  if truthy filename then
    match call_split_pop filename with
    | inl e => inl e
    | inr last => inr (if String.eqb last "" then language_ext language
                       else last)
    end
  else inr (language_ext language).

(** [(filename && filename.replace(/[^\w.\-]/g, "")) || `main.${ext}`];
    [filename] went through [split] before, so it is a string when it is
    truthy. *)
Definition zip_safeName (filename : JsVal) (ext : string) : string :=
  match filename with
  | JStr s => if String.eqb (clean_name s) "" then "main." +:+ ext
              else clean_name s
  | _ => "main." +:+ ext
  end.

(** What [/api/zip-code] sends: a JSON body, or the archive, given here by
    the one entry that was added to it. *)
Inductive ZipReply : Type :=
| ZipJson (r : Response)
| ZipArchive (entryName : string) (code : JsVal).

(** [POST /api/zip-code]; [zip_throws] says whether building the archive
    ([Buffer.from], [addFile], [toBuffer]) throws. *)
Definition zip_code (zip_throws : bool) (reqbody : JsVal)
    : JsError + ZipReply :=
  match get reqbody "code", get reqbody "language", get reqbody "filename" with
  | inr code, inr language, inr filename =>
      if negb (truthy code) then
        inr (ZipJson {| status := 400;
                        body := JObj [("error", JStr "Code required")] |})
      else
        match zip_ext filename language with
        | inl e => inl e
        | inr ext =>
            let safeName := zip_safeName filename ext in
            if zip_throws then
              inr (ZipJson {| status := 500;
                              body := JObj [("error", JStr "ZIP creation failed")] |})
            else inr (ZipArchive safeName code)
        end
  | inl e, _, _ | _, inl e, _ | _, _, inl e => inl e
  end.

(** An entry of an uploaded archive, as [adm-zip] gives it; [data] is
    [e.getData().toString("utf8")]. *)
Record ZipEntry : Type := {
  isDirectory : bool;
  entryName : string;
  data : string
}.

(** [/\.(png|jpg|jpeg|gif|mp4|mp3|ico|pdf)$/i.test(name)] *)
Definition is_media (name : string) : bool :=
  existsb (λ ext, Str.ends_with ("." +:+ ext) (toLowerCase name))
    ["png"; "jpg"; "jpeg"; "gif"; "mp4"; "mp3"; "ico"; "pdf"].

(** [`--- FILE: ${name} ---\n${content}`] with
    [content = data.slice(0, 20000)] *)
Definition file_text (e : ZipEntry) : string :=
  "--- FILE: " +:+ entryName e +:+ " ---" +:+ Str.newline
    +:+ String.substring 0 (Z.to_nat 20000) (data e).

(** The loop over the entries; [files] is the array built so far. *)
Fixpoint sample_loop (entries : list ZipEntry) (files : list string)
    : list string :=
  match entries with
  | [] => files
  | e :: rest =>
      if (30 <=? length files)%nat then files
      else if isDirectory e then sample_loop rest files
      else if is_media (entryName e) then sample_loop rest files
      else sample_loop rest (files ++ [file_text e])
  end.

Definition sample_files (entries : list ZipEntry) : list string :=
  sample_loop entries [].

(** An entry the loop takes when it gets to it. *)
Definition eligible (e : ZipEntry) : bool :=
  negb (isDirectory e) && negb (is_media (entryName e)).

End Zip.

(** ** The assistant endpoints of [server/routes.ts] *)

Module Chat.
Import Js Eff.

(** [{ role, content }] *)
Record Message : Type := { role : string; content : string }.

(** A row of [chat_messages] as [shared/schema.ts] declares it. *)
Record ChatRow : Type := {
  row_id : Z;
  row_role : string;
  row_content : string;
  row_codeContext : option string;
  row_projectId : option string;
  row_createdAt : Z
}.

Definition VIPU_SYSTEM_PROMPT : string :=
  Str.newline
  +:+ "You are VipuDevAI, a highly advanced AI developer assistant for Balaji."
  +:+ Str.newline
  +:+ Str.newline
  +:+ "Rules:" +:+ Str.newline
  +:+ "- Never reply with " +:+ Routes.dquote +:+ "I can't" +:+ Routes.dquote
  +:+ ", " +:+ Routes.dquote +:+ "I don't know" +:+ Routes.dquote
  +:+ ", or similar negative phrases." +:+ Str.newline
  +:+ "- Always provide a working answer, even if assumptions are needed."
  +:+ Str.newline
  +:+ "- Think like a senior full-stack engineer and architect." +:+ Str.newline
  +:+ "- Give complete, ready-to-run code." +:+ Str.newline
  +:+ "- Keep responses structured with headings, bullet points, and full examples."
  +:+ Str.newline.

(** [`${m.role || "user"}: ${m.content ?? m.message ?? ""}`]; the column
    [content] is never null. *)
Definition memory_line (m : ChatRow) : string :=
  (if String.eqb (row_role m) "" then "user" else row_role m)
    +:+ ": " +:+ row_content m.

(** [s || fallback] on strings *)
Definition str_or (s fallback : string) : string :=
  if String.eqb s "" then fallback else s.

(** [if (codeContext)] *)
Definition given (codeContext : option string) : option string :=
  match codeContext with
  | Some s => if String.eqb s "" then None else Some s
  | None => None
  end.

(** [buildVipuMessages(messages, codeContext)]; [history] is what
    [storage.getChatMessages(20)] returned, [None] when it threw. *)
Definition buildVipuMessages (history : option (list ChatRow))
    (messages : list Message) (codeContext : option string) : list Message :=
  let memory :=
    match history with
    | Some rows => str_or (String.concat Str.newline (map memory_line rows)) ""
    | None => ""
    end in
  let base :=
    [{| role := "system";
        content := VIPU_SYSTEM_PROMPT +:+ Str.newline +:+ Str.newline
                     +:+ "MEMORY:" +:+ Str.newline +:+ str_or memory "(none)" |}] in
  let base :=
    match given codeContext with
    | Some ctx =>
        base ++ [{| role := "user";
                    content := "Here is the current code/project context:"
                                 +:+ Str.newline +:+ ctx |}]
    | None => base
    end in
  base ++ messages.

(** The body of a chat request, typed as the handlers read it. *)
Record ChatRequest : Type := {
  req_messages : option (list Message);
  req_codeContext : option string
}.

(** What the handlers get from outside: whether [openai] is configured,
    the Perplexity key, what [callPerplexityResearch] returns for a
    question ([None] for [null]), the chat history, and what
    [openai.chat.completions.create] gives for a list of messages and a
    [max_tokens]: [choices[0]?.message?.content || ""], or [None] when the
    call throws. *)
Record ChatEnv : Type := {
  has_openai : bool;
  perplexityKey : string;
  research : string → option string;
  history : option (list ChatRow);
  complete : list Message → Z → option string
}.

(** [messages || []] *)
Definition or_empty (messages : option (list Message)) : list Message :=
  match messages with Some l => l | None => [] end.

Definition reply_body (reply : string) (usedResearch : bool) : JsVal :=
  JObj [("reply", JStr reply); ("usedResearch", JBool usedResearch)].

(** [POST /api/assistant/chat] *)
Definition assistant_chat (env : ChatEnv) (req : ChatRequest) : Response :=
  if negb (has_openai env) then
    {| status := 500; body := JObj [("error", JStr "OpenAI API key missing")] |}
  else
    let finalMessages :=
      buildVipuMessages (history env) (or_empty (req_messages req))
        (req_codeContext req) in
    match complete env finalMessages 4000 with
    | Some reply => {| status := 200; body := JObj [("reply", JStr reply)] |}
    | None =>
        {| status := 500; body := JObj [("error", JStr "Assistant failed")] |}
    end.

(** The content of the last message with role [user], or the stock
    sentence. *)
Definition last_user_question (messages : list Message) : string :=
  let userMessages := List.filter (λ m, String.eqb (role m) "user") messages in
  match List.rev userMessages with
  | m :: _ => content m
  | [] => "No explicit user question provided."
  end.

(** [if (perplexityKey) researchSummary = await callPerplexityResearch(lastUser)] *)
Definition researchSummary (env : ChatEnv) (lastUser : string) : option string :=
  if String.eqb (perplexityKey env) "" then None else research env lastUser.

Definition mergedSystem : Message :=
  {| role := "system";
     content :=
       VIPU_SYSTEM_PROMPT +:+ Str.newline +:+ Str.newline
       +:+ "You will be given:" +:+ Str.newline
       +:+ "- A user question" +:+ Str.newline
       +:+ "- Optional up-to-date research from an external engine"
       +:+ Str.newline +:+ Str.newline
       +:+ "Use the research ONLY as factual support. You must:" +:+ Str.newline
       +:+ "- Give one final, clean answer." +:+ Str.newline
       +:+ "- Do NOT mention Perplexity or any external tool by name."
       +:+ Str.newline
       +:+ "- If research is missing, still answer confidently using your own knowledge."
       +:+ Str.newline
       +:+ "- If research conflicts with your prior knowledge, prefer the research for recent events."
       +:+ Str.newline |}.

Definition mergedUser (lastUser : string) (codeContext summary : option string)
    : Message :=
  {| role := "user";
     content :=
       ("User question:" +:+ Str.newline +:+ lastUser +:+ Str.newline
          +:+ Str.newline)
       +:+ (match given codeContext with
            | Some ctx => "Code / project context:" +:+ Str.newline +:+ ctx
                            +:+ Str.newline +:+ Str.newline
            | None => ""
            end)
       +:+ (match given summary with
            | Some found =>
                "External research summary (may contain recent facts):"
                +:+ Str.newline +:+ found +:+ Str.newline +:+ Str.newline
                +:+ "Please integrate these facts into your answer, but respond in one coherent message addressed to Balaji."
            | None =>
                "No external research is available. Answer using your own reasoning and knowledge."
            end) |}.

(** The messages the first call of [/api/hybrid-chat] sends. *)
Definition hybrid_messages (env : ChatEnv) (req : ChatRequest) : list Message :=
  let lastUser := last_user_question (or_empty (req_messages req)) in
  let summary := researchSummary env lastUser in
  let memoryMessages := buildVipuMessages (history env) [] (req_codeContext req) in
  List.filter (λ m, String.eqb (role m) "system") memoryMessages
    ++ [mergedSystem; mergedUser lastUser (req_codeContext req) summary].

(** The messages of the second call, made when the first path threw. *)
Definition fallback_messages (req : ChatRequest) : list Message :=
  {| role := "system";
     content := VIPU_SYSTEM_PROMPT +:+ Str.newline
                  +:+ "Hybrid research path failed; just answer as best you can." |}
    :: or_empty (req_messages req).

(** [POST /api/hybrid-chat] *)
Definition hybrid_chat (env : ChatEnv) (req : ChatRequest) : Response :=
  if negb (has_openai env) then
    {| status := 500;
       body := JObj [("error", JStr "OpenAI API key missing on server")] |}
  else
    let lastUser := last_user_question (or_empty (req_messages req)) in
    let summary := researchSummary env lastUser in
    match complete env (hybrid_messages env req) 4000 with
    | Some reply =>
        {| status := 200;
           body := reply_body reply
                     (match given summary with Some _ => true | None => false end
                      && negb (String.eqb (perplexityKey env) "")) |}
    | None =>
        match complete env (fallback_messages req) 2000 with
        | Some reply => {| status := 200; body := reply_body reply false |}
        | None =>
            {| status := 500;
               body := JObj [("error", JStr "Hybrid assistant failed completely")] |}
        end
    end.

(** *** [POST /api/analyze-zip]

    [uploaded] is [req.file.path]; [open_zip] gives the entries of the
    archive at a path, [None] when [adm-zip] throws on it.  The outcome is
    the response and the paths handed to [fs.unlinkSync]. *)
Definition analyze_zip (env : ChatEnv)
    (open_zip : string → option (list Zip.ZipEntry)) (uploaded : option string)
    : Response * list string :=
  match uploaded with
  | None =>
      ({| status := 400; body := JObj [("error", JStr "File required")] |}, [])
  | Some zipPath =>
      if negb (has_openai env) then
        ({| status := 500; body := JObj [("error", JStr "API key missing")] |}, [])
      else
        (match open_zip zipPath with
         | None =>
             {| status := 500;
                body := JObj [("error", JStr "Failed to analyze ZIP")] |}
         | Some entries =>
             let files := Zip.sample_files entries in
             let msgs :=
               buildVipuMessages (history env)
                 [{| role := "user";
                     content := "Analyze my uploaded ZIP. Describe tech stack, architecture, issues, improvements." |};
                  {| role := "user";
                     content := String.concat (Str.newline +:+ Str.newline) files |}]
                 None in
             match complete env msgs 4000 with
             | Some analysis =>
                 {| status := 200;
                    body := JObj [("analysis", JStr analysis);
                                  ("sampledFiles", JNum (Z.of_nat (length files)))] |}
             | None =>
                 {| status := 500;
                    body := JObj [("error", JStr "Failed to analyze ZIP")] |}
             end
         end,
         [zipPath])
  end.

End Chat.

(** ** The chat memory of [server/storage.ts] *)

Module Storage.
Import Js Chat.

(** A row of [memory_summaries] as [shared/schema.ts] declares it. *)
Record SummaryRow : Type := {
  sum_id : Z;
  sum_projectId : option string;
  sum_summary : string;
  sum_updatedAt : Z
}.

(** The tables these methods touch.  Of [projects] only the ids are kept:
    they are what the foreign keys of the other two tables look at.  The
    two counters are the sequences behind the [serial] ids. *)
Record Db : Type := {
  projects : gset string;
  chat_messages : list ChatRow;
  memory_summaries : list SummaryRow;
  chat_seq : Z;
  summary_seq : Z
}.

(** A query without [ORDER BY] gets its rows in an order of the database's
    choosing, and [ORDER BY] leaves the order of equal keys open: the rows
    a [WHERE] selects are first arranged by the database, in any order. *)
Record Engine : Type := {
  arrange_chat : list ChatRow → list ChatRow;
  arrange_chat_perm : ∀ l, arrange_chat l ≡ₚ l;
  arrange_summaries : list SummaryRow → list SummaryRow;
  arrange_summaries_perm : ∀ l, arrange_summaries l ≡ₚ l
}.

(** [projectId ? eq(column, projectId) : isNull(column)] *)
Definition in_scope (projectId column : option string) : bool :=
  match Auth.present projectId, column with
  | Some p, Some c => String.eqb c p
  | None, None => true
  | _, _ => false
  end.

Definition older (a b : ChatRow) : Prop := row_createdAt a ≤ row_createdAt b.

#[global] Instance older_dec a b : Decision (older a b) := Z.le_dec _ _.

Section WithEngine.
Variable pg : Engine.

(** [getChatMessages(limit, projectId)] *)
Definition getChatMessages (limit : nat) (projectId : option string) (db : Db)
    : list ChatRow :=
  take limit
    (merge_sort older
       (arrange_chat pg
          (List.filter (λ r, in_scope projectId (row_projectId r))
             (chat_messages db)))).

(** [getRecentMessages(projectId)] *)
Definition getRecentMessages (projectId : option string) (db : Db)
    : list ChatRow :=
  take 20
    (merge_sort (flip older)
       (arrange_chat pg
          (List.filter (λ r, in_scope projectId (row_projectId r))
             (chat_messages db)))).

(** [getMemorySummary(projectId)] *)
Definition getMemorySummary (projectId : option string) (db : Db)
    : option string :=
  match arrange_summaries pg
          (List.filter (λ r, in_scope projectId (sum_projectId r))
             (memory_summaries db)) with
  | row :: _ => Some (sum_summary row)
  | [] => None
  end.

(** [saveMemorySummary(projectId, summary)] at time [now]; an insert for a
    project that is not in [projects] breaks the foreign key and throws. *)
Definition saveMemorySummary (projectId : option string) (summary : string)
    (now : Z) (db : Db) : (JsError + unit) * Db :=
  match Auth.present (getMemorySummary projectId db) with
  | Some _ =>
      (inr tt,
       {| projects := projects db;
          chat_messages := chat_messages db;
          memory_summaries :=
            map (λ r, if in_scope projectId (sum_projectId r)
                      then {| sum_id := sum_id r;
                              sum_projectId := sum_projectId r;
                              sum_summary := summary;
                              sum_updatedAt := now |}
                      else r)
              (memory_summaries db);
          chat_seq := chat_seq db;
          summary_seq := summary_seq db |})
  | None =>
      if match projectId with
         | Some p => bool_decide (p ∈ projects db)
         | None => true
         end
      then
        (inr tt,
         {| projects := projects db;
            chat_messages := chat_messages db;
            memory_summaries :=
              memory_summaries db ++
                [{| sum_id := summary_seq db + 1;
                    sum_projectId := projectId;
                    sum_summary := summary;
                    sum_updatedAt := now |}];
            chat_seq := chat_seq db;
            summary_seq := summary_seq db + 1 |})
      else (inl (SystemError "23503"), db)
  end.

End WithEngine.

(** [clearChatHistory(projectId)] *)
Definition clearChatHistory (projectId : option string) (db : Db) : Db :=
  {| projects := projects db;
     chat_messages :=
       List.filter (λ r, negb (in_scope projectId (row_projectId r)))
         (chat_messages db);
     memory_summaries :=
       List.filter (λ r, negb (in_scope projectId (sum_projectId r)))
         (memory_summaries db);
     chat_seq := chat_seq db;
     summary_seq := summary_seq db |}.

(** The database that hands its rows out in the order of insertion. *)
Definition in_order : Engine :=
  {| arrange_chat := λ l, l;
     arrange_chat_perm := λ l, reflexivity l;
     arrange_summaries := λ l, l;
     arrange_summaries_perm := λ l, reflexivity l |}.

End Storage.

(** ** More requests and hosts for the examples *)

Module MoreSamples.
Import Js Eff.

(** No [ADMIN_USERNAME] and no [ADMIN_PASSWORD] in the environment. *)
Definition defaults : Auth.Config :=
  {| Auth.env_ADMIN_USERNAME := None; Auth.env_ADMIN_PASSWORD := None |}.

Definition admin_login : JsVal :=
  JObj [("username", JStr "admin"); ("password", JStr "admin123")].

Definition guessed_login : JsVal :=
  JObj [("username", JStr "admin"); ("password", JStr "letmein")].

(** Thirty-two bytes from [randomBytes]. *)
Definition dice : list ascii := replicate 32 "171"%char.

Definition dice_token : string := Auth.generateToken dice.

Definition other_token : string := Auth.generateToken (replicate 32 "018"%char).

(** The answers of [/api/auth/verify] and of a good login. *)
Definition valid_response : Response :=
  {| status := 200; body := JObj [("valid", JBool true)] |}.

Definition invalid_token : Response :=
  {| status := 401; body := JObj [("error", JStr "Invalid token")] |}.

Definition logged_in (token : string) : Response :=
  {| status := 200;
     body := JObj [("token", JStr token); ("message", JStr "Login successful")] |}.

Definition invalid_credentials : Response :=
  {| status := 401; body := JObj [("error", JStr "Invalid credentials")] |}.

Definition readme : Zip.ZipEntry :=
  {| Zip.isDirectory := false; Zip.entryName := "README.md";
     Zip.data := "# demo" |}.

Definition logo : Zip.ZipEntry :=
  {| Zip.isDirectory := false; Zip.entryName := "assets/logo.PNG";
     Zip.data := "binary" |}.

Definition src_dir : Zip.ZipEntry :=
  {| Zip.isDirectory := true; Zip.entryName := "src/"; Zip.data := "" |}.

(** A database with two projects, a few messages and two summaries, one
    of them empty. *)
Definition said (id : Z) (text : string) (project : option string) (at_ : Z)
    : Chat.ChatRow :=
  {| Chat.row_id := id; Chat.row_role := "user"; Chat.row_content := text;
     Chat.row_codeContext := None; Chat.row_projectId := project;
     Chat.row_createdAt := at_ |}.

Definition small_db : Storage.Db :=
  {| Storage.projects := {["p1"; "p2"]};
     Storage.chat_messages :=
       [said 1 "one" None 10; said 2 "two" (Some "p1") 20;
        said 3 "three" None 30; said 4 "four" (Some "p2") 40];
     Storage.memory_summaries :=
       [{| Storage.sum_id := 1; Storage.sum_projectId := Some "p1";
           Storage.sum_summary := "likes Rust"; Storage.sum_updatedAt := 25 |};
        {| Storage.sum_id := 2; Storage.sum_projectId := Some "p2";
           Storage.sum_summary := ""; Storage.sum_updatedAt := 45 |}];
     Storage.chat_seq := 4;
     Storage.summary_seq := 2 |}.

Definition question (text : string) : Chat.Message :=
  {| Chat.role := "user"; Chat.content := text |}.

Definition answer (text : string) : Chat.Message :=
  {| Chat.role := "assistant"; Chat.content := text |}.

(** A server with both keys where research finds something and the model
    answers. *)
Definition full_service : Chat.ChatEnv :=
  {| Chat.has_openai := true;
     Chat.perplexityKey := "pplx-key";
     Chat.research := λ _, Some "found";
     Chat.history := Some [];
     Chat.complete := λ _ _, Some "done" |}.

Definition two_turns : Chat.ChatRequest :=
  {| Chat.req_messages :=
       Some [question "first"; answer "reply"; question "second";
             answer "again"];
     Chat.req_codeContext := Some "let x = 1" |}.

End MoreSamples.

(** ** The models at work *)

Example split_ex : Path.split "/tmp//a/b/" = [""; "tmp"; ""; "a"; "b"; ""].
Proof. reflexivity. Qed.

Example normalize_ex1 : Path.normalize "/tmp/x/../../etc/passwd" = "/etc/passwd".
Proof. reflexivity. Qed.

Example normalize_ex2 : Path.normalize "a/./b/../../../c/" = "../c/".
Proof. reflexivity. Qed.

Example normalize_ex3 : Path.normalize "/.." = "/".
Proof. reflexivity. Qed.

Example join_ex1 : Path.join ["/tmp"; "vipurun-"] = "/tmp/vipurun-".
Proof. reflexivity. Qed.

Example dirname_ex1 : Path.dirname "/tmp/vipuproject-Ab12Cd/src/main.js"
                      = "/tmp/vipuproject-Ab12Cd/src".
Proof. reflexivity. Qed.

Example dirname_ex2 : Path.dirname "/passwd" = "/".
Proof. reflexivity. Qed.

Example dirname_ex3 : Path.dirname "a/b/" = "a".
Proof. reflexivity. Qed.

Example strip_ex : Js.strip_leading_seps "/\/etc/passwd" = "etc/passwd".
Proof. reflexivity. Qed.

Example lower_ex : Js.toLowerCase "PyThoN-3" = "python-3".
Proof. reflexivity. Qed.

(** ** Strings and paths *)

Module StringFacts.

Lemma app_cons (c : ascii) (a b : string) :
  String c a +:+ b = String c (a +:+ b).
Proof. reflexivity. Qed.

Lemma app_nil_r (s : string) : s +:+ "" = s.
Proof. induction s as [|c s IH]; [done|]. by rewrite app_cons, IH. Qed.

Lemma app_assoc (a b c : string) : (a +:+ b) +:+ c = a +:+ b +:+ c.
Proof. induction a as [|x a IH]; [done|]. by rewrite !app_cons, IH. Qed.

Lemma prefix_app (a b : string) : String.prefix a (a +:+ b) = true.
Proof.
  induction a as [|x a IH]; [by destruct b|].
  rewrite app_cons. simpl. destruct (ascii_dec x x); [done|congruence].
Qed.

Lemma prefix_refl (a : string) : String.prefix a a = true.
Proof. rewrite <- (app_nil_r a) at 2. apply prefix_app. Qed.

Lemma prefix_nil (s : string) : String.prefix "" s = true.
Proof. by destruct s. Qed.

End StringFacts.

Module PathFacts.
Import Js Path Props.

Lemma split_nonempty s : split s ≠ [].
Proof.
  destruct s as [|c s]; simpl; [done|].
  destruct (is_slash c); [done|]. by destruct (split s).
Qed.

Lemma split_app_slash a b : split (a +:+ "/" +:+ b) = split a ++ split b.
Proof.
  induction a as [|c a IH]; [done|].
  rewrite StringFacts.app_cons. simpl. rewrite IH.
  destruct (is_slash c); [done|].
  pose proof (split_nonempty a). by destruct (split a).
Qed.

Lemma join_split s : join_segments (split s) = s.
Proof.
  induction s as [|c s IH]; [done|]. simpl.
  destruct (is_slash c) eqn:Hc.
  - apply Ascii.eqb_eq in Hc as ->.
    pose proof (split_nonempty s).
    change (join_segments ("" :: split s)) with
      (match split s with [] => "" | _ => "" +:+ "/" +:+ join_segments (split s) end).
    destruct (split s); [done|]. by rewrite IH.
  - pose proof (split_nonempty s).
    destruct (split s) as [|seg segs]; [done|].
    rewrite <- IH. by destruct segs.
Qed.

Lemma join_segments_app a b :
  a ≠ [] → b ≠ [] →
  join_segments (a ++ b) = join_segments a +:+ "/" +:+ join_segments b.
Proof.
  intros Ha Hb. induction a as [|x a IH]; [done|].
  destruct a as [|y a].
  - simpl. by destruct b.
  - change (join_segments ((x :: y :: a) ++ b))
      with (x +:+ "/" +:+ join_segments ((y :: a) ++ b)).
    rewrite IH by done.
    change (join_segments (x :: y :: a))
      with (x +:+ "/" +:+ join_segments (y :: a)).
    by rewrite !StringFacts.app_assoc.
Qed.

Lemma trailing_slash_app a b :
  b ≠ "" → trailing_slash (a +:+ b) = trailing_slash b.
Proof.
  intros Hb. induction a as [|c a IH]; [done|].
  rewrite StringFacts.app_cons. simpl. rewrite IH.
  destruct (a +:+ b) eqn:Hab; [|done].
  destruct a; [done|discriminate].
Qed.

Lemma proper_segment_kept seg :
  proper_segment seg = true →
  String.eqb seg "" || String.eqb seg "." = false ∧ String.eqb seg ".." = false.
Proof.
  unfold proper_segment. intros H.
  repeat (apply andb_prop in H as [H ?]).
  split; [apply orb_false_intro|]; by apply negb_true_iff.
Qed.

Lemma keep_proper segs :
  forallb proper_segment segs = true → keep segs = segs.
Proof.
  induction segs as [|seg segs IH]; [done|]. simpl.
  intros [Hseg Hrest]%andb_prop.
  apply proper_segment_kept in Hseg as [-> _]. by rewrite IH.
Qed.

Lemma keep_app a b : keep (a ++ b) = keep a ++ keep b.
Proof.
  induction a as [|x a IH]; [done|]. simpl.
  destruct (String.eqb x "" || String.eqb x "."); by rewrite IH.
Qed.

(** Without [..] among them, the segments that are neither empty nor [.]
    are pushed one after the other. *)
Lemma fold_push_segment allowAboveRoot segs stack :
  forallb (λ seg, negb (String.eqb seg "..")) segs = true →
  fold_left (push_segment allowAboveRoot) segs stack = rev (keep segs) ++ stack.
Proof.
  revert stack. induction segs as [|seg segs IH]; intros stack; [done|].
  simpl. intros [Hseg Hrest]%andb_prop. apply negb_true_iff in Hseg.
  rewrite IH by done. unfold push_segment. rewrite Hseg.
  destruct (String.eqb seg "" || String.eqb seg "."); [done|].
  simpl. by rewrite <- app_assoc.
Qed.

Lemma normalize_segments_keep allowAboveRoot segs :
  forallb (λ seg, negb (String.eqb seg "..")) segs = true →
  normalize_segments allowAboveRoot segs = keep segs.
Proof.
  intros H. unfold normalize_segments.
  rewrite fold_push_segment by done. by rewrite app_nil_r, rev_involutive.
Qed.

Lemma proper_not_dotdot segs :
  forallb proper_segment segs = true →
  forallb (λ seg, negb (String.eqb seg "..")) segs = true.
Proof.
  induction segs as [|seg segs IH]; [done|]. simpl.
  intros [Hseg Hrest]%andb_prop.
  apply proper_segment_kept in Hseg as [_ ->]. by apply IH.
Qed.

Lemma join_segments_empty seg segs :
  join_segments (seg :: segs) = "" → seg = "".
Proof.
  destruct segs; [done|].
  change (join_segments (seg :: s :: segs))
    with (seg +:+ "/" +:+ join_segments (s :: segs)).
  by destruct seg.
Qed.

(** [path.normalize] of a clean absolute directory, a slash, and a path
    that has no [..]: the directory, then what is kept of the path. *)
Lemma normalize_below rest p :
  forallb proper_segment (split rest) = true →
  no_dotdot p = true →
  normalize (String "/" rest +:+ "/" +:+ p) =
    "/" +:+ join_segments (split rest ++ keep (split p))
        +:+ (if trailing_slash ("/" +:+ p) then "/" else "").
Proof.
  intros Hrest Hp. unfold normalize.
  rewrite StringFacts.app_cons.
  change (String.eqb (String "/" (rest +:+ "/" +:+ p)) "") with false.
  change (isAbsolute (String "/" (rest +:+ "/" +:+ p))) with true.
  cbv iota. simpl negb.
  change (split (String "/" (rest +:+ "/" +:+ p)))
    with ("" :: split (rest +:+ "/" +:+ p)).
  rewrite split_app_slash.
  rewrite normalize_segments_keep; last first.
  { simpl. rewrite forallb_app. apply andb_true_intro.
    split; [by apply proper_not_dotdot|done]. }
  change (keep ("" :: split rest ++ split p)) with (keep (split rest ++ split p)).
  rewrite keep_app, keep_proper by done.
  assert (trailing_slash (String "/" (rest +:+ "/" +:+ p))
          = trailing_slash ("/" +:+ p)) as ->.
  { change (String "/" (rest +:+ "/" +:+ p))
      with (String "/" rest +:+ "/" +:+ p).
    by apply trailing_slash_app. }
  destruct (String.eqb (join_segments (split rest ++ keep (split p))) "")
    eqn:Hbody; [|done].
  apply String.eqb_eq in Hbody.
  pose proof (split_nonempty rest) as Hne.
  destruct (split rest) as [|seg segs] eqn:Hsplit; [done|].
  apply join_segments_empty in Hbody as ->.
  by apply andb_prop in Hrest as [? _].
Qed.

(** [path.join(dir, p)] for a clean absolute [dir] and a [p] without [..]
    is [dir] or lies below it. *)
Lemma join_stays_within dir p :
  clean_absolute dir = true →
  p ≠ "" →
  no_dotdot p = true →
  Node.within dir (Path.join [dir; p]) = true.
Proof.
  intros Hdir Hp Hdd. destruct dir as [|c rest]; [done|].
  apply andb_prop in Hdir as [Hc Hrest]. apply Ascii.eqb_eq in Hc as ->.
  unfold Path.join. rewrite filter_cons_True by done.
  rewrite filter_cons_True by done. rewrite filter_nil.
  change (join_segments [String "/" rest; p])
    with (String "/" rest +:+ "/" +:+ p).
  rewrite normalize_below by done.
  pose proof (split_nonempty rest) as Hne.
  unfold Node.within.
  destruct (keep (split p)) as [|k ks] eqn:Hkeep.
  - rewrite app_nil_r, join_split.
    change ("/" +:+ rest +:+ (if trailing_slash ("/" +:+ p) then "/" else ""))
      with (String "/" rest +:+ (if trailing_slash ("/" +:+ p) then "/" else "")).
    destruct (trailing_slash ("/" +:+ p)).
    + by rewrite StringFacts.prefix_refl, orb_true_r.
    + by rewrite StringFacts.app_nil_r, String.eqb_refl.
  - rewrite join_segments_app, join_split by done.
    apply orb_true_intro. right.
    set (t := if trailing_slash ("/" +:+ p) then "/" else "").
    set (u := join_segments (k :: ks)).
    rewrite !StringFacts.app_assoc.
    change ("/" +:+ rest +:+ "/" +:+ u +:+ t)
      with (String "/" rest +:+ "/" +:+ u +:+ t).
    rewrite <- (StringFacts.app_assoc (String "/" rest) "/").
    apply StringFacts.prefix_app.
Qed.



Lemma strip_empty_only_seps s :
  strip_leading_seps s = "" → only_seps s = true.
Proof.
  induction s as [|c s IH]; [done|]. simpl.
  destruct (is_sep c); [by apply IH|done].
Qed.

End PathFacts.

(** ** What the handlers do, statement by statement *)

Module Facts.
Import Js Eff Node Routes Props.

Ltac eff_unfold :=
  unfold mbind, mret, eff_bind, eff_ret, bind, ret, throw, try_catch,
    attempt, lift, modify in *.

Ltac eff_step :=
  first [progress eff_unfold | progress simplify_eq/= | case_match].

Ltac eff_cases := repeat eff_step; eauto.

(** *** [POST /api/run] *)

(** The handler leaves its callback pending only after it made the scratch
    directory, wrote the code to [main.<ext>] and called [exec]. *)
Lemma run_handler_pending env reqbody w dir w' :
  run_handler env reqbody w = (inr (Some dir), w') →
  ∃ code language suffix,
    get reqbody "code" = inr code ∧
    get reqbody "language" = inr language ∧
    truthy code = true ∧
    fresh env = Some suffix ∧
    dir = Path.join [tmpdir env; "vipurun-"] +:+ suffix ∧
    let lang := run_lang language in
    let filePath := Path.join [dir; "main" +:+ run_ext lang] in
    w' = {| dirs := {[dir]} ∪ dirs w;
            files := <[filePath := code]> (files w);
            launched := launched w ++
              [ViaShell (run_cmd lang +:+ " " +:+ dquote +:+ filePath +:+ dquote)
                        8000];
            signals := signals w;
            sent := sent w |}.
Proof.
  unfold run_handler, mkdtempSync, writeFileSync, exec, res_json.
  intros H. eff_cases.
  eexists _, _, _. repeat split; eauto.
  by destruct (truthy _).
Qed.



Lemma within_refl dir : within dir dir = true.
Proof. unfold within. by rewrite String.eqb_refl. Qed.

(** Nothing at or below [dir] is left once [rmSync dir] has run. *)
Lemma rmSync_removes dir w p :
  within dir p = true → p ∉ dirs (rmSync dir w).2.
Proof.
  intros Hin. simpl. rewrite elem_of_filter. intros [Hout _]. congruence.
Qed.

Lemma rmSync_removes_files dir w p :
  within dir p = true → files (rmSync dir w).2 !! p = None.
Proof.
  intros Hin. simpl. apply map_lookup_filter_None. right.
  intros v _. simpl. congruence.
Qed.


(** *** [POST /api/run-project] *)

Lemma quiet_refl w : quiet w w.
Proof. by repeat split. Qed.

Lemma quiet_trans w1 w2 w3 : quiet w1 w2 → quiet w2 w3 → quiet w1 w3.
Proof.
  intros (Hl & Hs & Hg & Hd) (Hl' & Hs' & Hg' & Hd').
  repeat split; [congruence .. | set_solver].
Qed.

Lemma write_entry_quiet env sanitize dir f w :
  quiet w (write_entry env sanitize dir f w).2.
Proof.
  unfold write_entry, mkdirSync, writeFileSync.
  eff_cases; repeat split; simpl; try done; set_solver.
Qed.

Lemma write_entries_quiet env sanitize dir fs w :
  quiet w (write_entries env sanitize dir fs w).2.
Proof.
  revert w. induction fs as [|f rest IH]; intros w; simpl.
  - apply quiet_refl.
  - pose proof (write_entry_quiet env sanitize dir f w) as Hf.
    eff_unfold. destruct (write_entry env sanitize dir f w) as [[e|[]] w1];
      simpl in *; [done|].
    eapply quiet_trans; [exact Hf | apply IH].
Qed.

(** The handler waits for the events of a child only after it made the
    scratch directory, wrote every entry and called [spawn] once. *)
Lemma run_project_handler_pending env sanitize reqbody w st w' :
  run_project_handler_with env sanitize reqbody w = (inr (Some st), w') →
  ∃ files language command lang suffix,
    get reqbody "files" = inr files ∧
    get reqbody "language" = inr language ∧
    get reqbody "command" = inr command ∧
    isArray files = true ∧
    call_toLowerCase (or_else language (JStr "node")) = inr lang ∧
    fresh env = Some suffix ∧
    st = {| tempDir := Path.join [tmpdir env; "vipuproject-"] +:+ suffix;
            image := project_image lang;
            stdout := ""; stderr := ""; timer := true |} ∧
    launched w' = launched w ++
      [Spawned "docker"
         (dockerArgs (tempDir st) (image st) command (project_defaultCmd lang))] ∧
    sent w' = sent w ∧
    signals w' = signals w ∧
    tempDir st ∈ dirs w'.
Proof.
  unfold run_project_handler_with, project_catch, mkdtempSync, spawn, res_json.
  intros H. eff_unfold.
  destruct (get reqbody "files") as [?|files] eqn:Hfiles;
    simpl in H; [done|].
  destruct (get reqbody "language") as [?|language] eqn:Hlang;
    simpl in H; [done|].
  destruct (get reqbody "command") as [?|command] eqn:Hcmd;
    simpl in H; [done|].
  destruct (isArray files) eqn:Harr;
    [|by rewrite orb_true_r in H].
  destruct (truthy files) eqn:Htr; simpl in H; [|done].
  destruct (call_toLowerCase (or_else language (JStr "node")))
    as [?|lang] eqn:Hlower; simpl in H; [done|].
  destruct (fresh env) as [suffix|] eqn:Hfresh; simpl in H; [|done].
  set (dir := Path.join [tmpdir env; "vipuproject-"] +:+ suffix) in *.
  match type of H with
  | context [write_entries env sanitize dir ?fs ?w0] =>
      pose proof (write_entries_quiet env sanitize dir fs w0) as Hq;
      destruct (write_entries env sanitize dir fs w0) as [[e|[]] w1]
  end; [by eff_cases|].
  destruct Hq as (Hl & Hs & Hg & Hd). simpl in *.
  destruct (launch_throws env); simpl in H;
    [by destruct (String.eqb dir "")|]; simplify_eq/=.
  eexists files, language, command, lang, suffix.
  repeat split; try done; simpl.
  - by rewrite Hl.
  - set_solver.
Qed.

(** Without a pending child, the handler started none. *)
Lemma run_project_handler_no_launch env sanitize reqbody w :
  (∀ st, (run_project_handler_with env sanitize reqbody w).1 ≠ inr (Some st)) →
  launched (run_project_handler_with env sanitize reqbody w).2 = launched w.
Proof.
  unfold run_project_handler_with, project_catch, mkdtempSync, spawn, res_json.
  eff_unfold. intros H.
  destruct (get reqbody "files") as [?|files]; simpl in *; [done|].
  destruct (get reqbody "language") as [?|language]; simpl in *; [done|].
  destruct (get reqbody "command") as [?|command]; simpl in *; [done|].
  destruct (negb (truthy files) || negb (isArray files)); simpl in *; [done|].
  destruct (call_toLowerCase _) as [?|lang]; simpl in *; [done|].
  destruct (fresh env) as [suffix|]; simpl in *; [|done].
  match goal with
  | |- context [write_entries env sanitize ?dir ?fs ?w0] =>
      pose proof (write_entries_quiet env sanitize dir fs w0) as Hq;
      destruct (write_entries env sanitize dir fs w0) as [[e|[]] w1]
  end; destruct Hq as (Hl & _); simpl in *.
  - by destruct (String.eqb _ "").
  - destruct (launch_throws env); simpl in *.
    + by destruct (String.eqb _ "").
    + by edestruct H.
Qed.

(** A [files] that is not an array is answered with 400 and nothing else
    happens. *)
Lemma run_project_handler_rejects env sanitize reqbody files w :
  get reqbody "files" = inr files →
  isArray files = false →
  run_project_handler_with env sanitize reqbody w =
    (inr None,
     {| dirs := dirs w; files := Eff.files w; launched := launched w;
        signals := signals w;
        sent := sent w ++
          [{| status := 400; body := error_body "files[] required" |}] |}).
Proof.
  intros Hfiles Harr. unfold run_project_handler_with, res_json.
  rewrite Hfiles. eff_unfold.
  destruct reqbody; simplify_eq/=; rewrite ?Harr, ?orb_true_r; done.
Qed.

(** When the handler gives up after it made the scratch directory, the
    [catch] block has removed it. *)
Lemma run_project_handler_failure_cleans env sanitize reqbody suffix w :
  fresh env = Some suffix →
  let dir := Path.join [tmpdir env; "vipuproject-"] +:+ suffix in
  dir ≠ "" →
  dir ∉ dirs w →
  (run_project_handler_with env sanitize reqbody w).1 = inr None →
  dir ∉ dirs (run_project_handler_with env sanitize reqbody w).2.
Proof.
  intros Hfresh dir Hne Hnew.
  apply String.eqb_neq in Hne.
  unfold run_project_handler_with, project_catch, mkdtempSync, spawn, res_json.
  rewrite Hfresh. eff_unfold. fold dir.
  destruct (get reqbody "files") as [?|files]; simpl; [done|].
  destruct (get reqbody "language") as [?|language]; simpl; [done|].
  destruct (get reqbody "command") as [?|command]; simpl; [done|].
  destruct (negb (truthy files) || negb (isArray files)); simpl; [done|].
  destruct (call_toLowerCase _) as [?|lang]; simpl; [done|].
  destruct (write_entries env sanitize dir _ _) as [[e|[]] w1]; simpl.
  - rewrite Hne. simpl. intros _. rewrite elem_of_filter, within_refl.
    by intros [? _].
  - destruct (launch_throws env); simpl; [|done].
    rewrite Hne. simpl. intros _. rewrite elem_of_filter, within_refl.
    by intros [? _].
Qed.

(** *** The events of the container *)



(** The [close] listener removes the scratch directory. *)
Lemma on_event_close_cleans code st w :
  tempDir st ∉ dirs (on_event (EvClose code) st w).2.
Proof.
  simpl. rewrite elem_of_filter, within_refl. by intros [? _].
Qed.

(** What the [close] listener does: the scratch directory goes, then the
    result is sent with the exit code as [close] gave it. *)
Lemma on_event_close_spec code st w :
  on_event (EvClose code) st w =
    (inr {| tempDir := tempDir st; image := image st; stdout := stdout st;
            stderr := stderr st; timer := false |},
     {| dirs := filter (λ p, within (tempDir st) p = false) (dirs w);
        files := filter (λ kv, within (tempDir st) kv.1 = false) (Eff.files w);
        launched := launched w;
        signals := signals w;
        sent := sent w ++
          [{| status := 200;
              body := JObj [("stdout", JStr (stdout st));
                            ("stderr", JStr (stderr st));
                            ("exitCode", code);
                            ("imageUsed", JStr (image st))] |}] |}).
Proof. reflexivity. Qed.

(** No listener makes a directory, and none changes which scratch
    directory the request owns. *)
Lemma on_event_dirs ev st w st' w' :
  on_event ev st w = (inr st', w') →
  tempDir st' = tempDir st ∧ dirs w' ⊆ dirs w.
Proof.
  destruct ev; simpl; eff_unfold; intros H; simplify_eq/=; try done.
  - split; [done|]. intros p. rewrite elem_of_filter. by intros [_ ?].
  - destruct (timer st); by simplify_eq/=.
Qed.

Lemma deliver_dirs evs st w st' w' :
  deliver evs st w = (inr st', w') →
  tempDir st' = tempDir st ∧ dirs w' ⊆ dirs w.
Proof.
  revert st w. induction evs as [|ev evs IH]; intros st w; simpl.
  - eff_unfold. by intros [= <- <-].
  - eff_unfold. destruct (on_event ev st w) as [[e|st1] w1] eqn:Hev; [done|].
    intros Hrest. apply on_event_dirs in Hev as [Ht Hd].
    destruct (IH _ _ Hrest) as [Ht' Hd']. split; [congruence|].
    by trans (dirs w1).
Qed.

(** Once [close] has come and no event was thrown, the scratch directory
    of the request is gone. *)
Lemma deliver_close_cleans evs code st w st' w' :
  EvClose code ∈ evs →
  deliver evs st w = (inr st', w') →
  tempDir st ∉ dirs w'.
Proof.
  revert st w. induction evs as [|ev evs IH]; intros st w Hin; simpl.
  { by apply elem_of_nil in Hin. }
  eff_unfold. destruct (on_event ev st w) as [[e|st1] w1] eqn:Hev; [done|].
  intros Hrest. apply elem_of_cons in Hin as [<-|Hin].
  - pose proof (on_event_close_cleans code st w) as Hgone.
    rewrite Hev in Hgone. simpl in Hgone.
    apply deliver_dirs in Hrest as [_ Hd]. set_solver.
  - apply on_event_dirs in Hev as [Ht _]. rewrite <- Ht. by eapply IH.
Qed.

(** The events of the child start no process. *)
Lemma on_event_launched ev st w :
  launched (on_event ev st w).2 = launched w.
Proof. destruct ev; simpl; try done. by destruct (timer st). Qed.

Lemma deliver_launched evs st w :
  launched (deliver evs st w).2 = launched w.
Proof.
  revert st w. induction evs as [|ev evs IH]; intros st w; simpl; [done|].
  eff_unfold. pose proof (on_event_launched ev st w) as Hev.
  destruct (on_event ev st w) as [[e|st'] w']; simpl in *; [done|].
  by rewrite IH.
Qed.

(** One request starts at most one process, whatever the child does: the
    handler calls [spawn] once at most and no listener calls it again. *)
Lemma run_project_attempt_launches_once env reqbody evs w :
  let end_state := (run_project_attempt env reqbody evs w).2 in
  launched end_state = launched w ∨
  ∃ l, launched end_state = launched w ++ [l].
Proof.
  simpl. unfold run_project_attempt, run_project_handler. eff_unfold.
  pose proof (run_project_handler_no_launch env safe_path reqbody w) as Hno.
  pose proof (run_project_handler_pending env safe_path reqbody w) as Hyes.
  destruct (run_project_handler_with env safe_path reqbody w)
    as [[e|[st|]] w1]; simpl in *.
  - left. by apply Hno.
  - destruct (Hyes st w1 eq_refl)
      as (? & ? & ? & ? & ? & _ & _ & _ & _ & _ & _ & _ & Hl & _).
    right. eexists.
    pose proof (deliver_launched evs st w1) as Hd.
    destruct (deliver evs st w1) as [[e|st'] w2]; simpl in *;
      by rewrite Hd, Hl.
  - left. by apply Hno.
Qed.

(** When the source file cannot be written, [/api/run] answers 500 and
    leaves the scratch directory it made. *)
Lemma run_attempt_write_refused env reqbody code language suffix child w :
  get reqbody "code" = inr code →
  get reqbody "language" = inr language →
  truthy code = true →
  fresh env = Some suffix →
  let dir := Path.join [tmpdir env; "vipurun-"] +:+ suffix in
  fs_refuses env (Path.join [dir; "main" +:+ run_ext (run_lang language)])
    = true →
  let end_state := (run_attempt env reqbody child w).2 in
  dir ∈ dirs end_state ∧
  launched end_state = launched w ∧
  sent end_state = sent w ++
    [{| status := 500; body := error_body "Failed to execute" |}].
Proof.
  intros Hc Hl Ht Hf dir Hfs. simpl.
  unfold run_attempt, run_handler, mkdtempSync, writeFileSync, exec, res_json.
  rewrite Hc, Hl. eff_unfold. simpl. rewrite Ht. simpl.
  rewrite Hf. simpl. fold dir. rewrite Hfs. simpl.
  split; [set_solver|done].
Qed.

Lemma strict_eq_str_true v s : strict_eq_str v s = true → v = JStr s.
Proof.
  destruct v; try done. simpl. by intros ->%String.eqb_eq.
Qed.


End Facts.

(** ** The single-file runner, [POST /api/run] *)

Module DirectRunner.
Import Js Eff Node Routes Samples Props Facts.

(** C3 (the code does otherwise).  A run that is still going when the
    timeout of [exec] runs out is reported with [timedOut: true], and its
    [exitCode] is the number 0, the very value a run that exited with
    status 0 gets: [exec] hands over an error whose [code] is [null], and
    [code || 0] turns that into 0.  Here at the callback, for every output
    captured, and on a request that loops for ever. *)
Theorem run_deadline_reports_exit_code_zero :
  (∀ dir out err w,
     let '(error, o, e) := exec_callback_args (DeadlinePassed out err) in
     sent (run_callback dir error o e w).2
       = sent w ++ [run_result out err (JNum 0) true]) ∧
  (∀ dir out err w,
     let '(error, o, e) := exec_callback_args (Exited 0 out err) in
     sent (run_callback dir error o e w).2
       = sent w ++ [run_result out err (JNum 0) false]) ∧
  sent (run_attempt host (run_request "while(true){}" "javascript")
          (DeadlinePassed "" "") pristine).2
    = [run_result "" "" (JNum 0) true].
Proof. repeat split. Qed.

(** C2 (the code does otherwise).  When the source file cannot be written
    after the scratch directory was made, [/api/run] answers 500 and the
    directory is still there: its [catch] block removes nothing, however
    the child would have ended. *)
Theorem run_write_failure_leaves_scratch_dir (child : ExecEnd) :
  let end_state :=
    (run_attempt host_full_disk (run_request "print(1)" "python") child
       pristine).2 in
  sent end_state = [error_response 500 "Failed to execute"] ∧
  launched end_state = [] ∧
  "/tmp/vipurun-Ab12Cd" ∈ dirs end_state.
Proof.
  split; [reflexivity|]. split; [reflexivity|].
  by vm_compute.
Qed.

End DirectRunner.

(** ** The project runner, [POST /api/run-project] *)

Module ContainerRunner.
Import Js Eff Node Routes Samples Props Facts.

(** C4 (as stated, refuted).  An empty [files] array passes the check
    [!files || !Array.isArray(files)]: no 400 is sent, the scratch directory
    is made and [docker] is started with the default command. *)
Lemma empty_files_array_is_run :
  let reqbody := JObj [("files", JArr [])] in
  get reqbody "files" = inr (JArr []) ∧
  not_a_nonempty_sequence (JArr []) ∧
  ¬ rejected_as_invalid host reqbody ∧
  launched (run_project_handler host reqbody pristine).2 =
    [Spawned "docker"
       (dockerArgs "/tmp/vipuproject-Ab12Cd" "node:18" JUndefined
          "node main.js")].
Proof.
  split; [reflexivity|]. split; [exact I|]. split; [|reflexivity].
  intros H. specialize (H pristine). apply (f_equal fst) in H. done.
Qed.

(** C4 (amended).  A request whose [files] is missing or is anything but
    an array is answered with status 400, [files[] required], before a
    scratch directory is made: no file is written and no process is
    started. *)
Theorem non_array_files_rejected env reqbody files :
  get reqbody "files" = inr files →
  isArray files = false →
  rejected_as_invalid env reqbody.
Proof.
  intros Hfiles Harr w.
  exact (run_project_handler_rejects env safe_path reqbody files w Hfiles Harr).
Qed.

Lemma non_array_files_rejected_witness :
  (get (JObj [("language", JStr "python")]) "files" = inr JUndefined ∧
   isArray JUndefined = false) ∧
  rejected_as_invalid host (JObj [("language", JStr "python")]).
Proof.
  split; [by split|].
  by apply (non_array_files_rejected host (JObj [("language", JStr "python")])
              JUndefined).
Defined.

(** C5 (the code does otherwise).  When [docker] cannot be started the
    child emits [error]; the handler registered no listener for it, so the
    event is thrown past the handler: one process was asked for, no
    response is written, and the scratch directory stays. *)
Theorem docker_missing_goes_unanswered :
  (∀ errname st w,
     on_event (EvError errname) st w = (inl (SystemError errname), w)) ∧
  let r := run_project_attempt host ruby_project [EvError "ENOENT"] pristine in
  r.1 = inl (SystemError "ENOENT") ∧
  sent r.2 = [] ∧
  length (launched r.2) = 1%nat ∧
  "/tmp/vipuproject-Ab12Cd" ∈ dirs r.2.
Proof.
  split; [done|]. do 3 (split; [reflexivity|]). by vm_compute.
Qed.

(** C6.  Whenever [/api/run-project] starts a container, it starts
    [docker] with exactly these arguments: [run --rm], [--network none],
    [--memory 512m], [--cpus 1], the scratch directory mounted at [/app]
    with no read-only flag, [/app] as working directory, the image chosen
    from the language, and [bash -lc] with the command of the request, or
    with the default command of the language when the request has none. *)
Theorem container_launch_policy env reqbody w st w' :
  run_project_handler env reqbody w = (inr (Some st), w') →
  ∃ language command lang,
    get reqbody "language" = inr language ∧
    get reqbody "command" = inr command ∧
    call_toLowerCase (or_else language (JStr "node")) = inr lang ∧
    tempDir st ∈ dirs w' ∧
    image st = (if String.eqb lang "python" then "python:3.11" else "node:18") ∧
    launched w' = launched w ++
      [Spawned "docker"
         [JStr "run"; JStr "--rm";
          JStr "--network"; JStr "none";
          JStr "--memory"; JStr "512m";
          JStr "--cpus"; JStr "1";
          JStr "-v"; JStr (tempDir st +:+ ":/app");
          JStr "-w"; JStr "/app";
          JStr (image st);
          JStr "bash"; JStr "-lc";
          if truthy command then command
          else JStr (if String.eqb lang "python" then "python main.py"
                     else "node main.js")]].
Proof.
  intros H.
  apply (run_project_handler_pending env safe_path) in H
    as (files & language & command & lang & suffix & _ & Hlang & Hc & _
        & Hlower & _ & Hst & Hl & _ & _ & Hdir).
  exists language, command, lang. do 4 (split; [done|]).
  split; [by rewrite Hst|]. by rewrite Hl, Hst.
Qed.

Lemma container_launch_policy_witness :
  run_project_handler host ruby_project pristine
    = (inr (Some ruby_run), (run_project_handler host ruby_project pristine).2) ∧
  ∃ language command lang,
    get ruby_project "language" = inr language ∧
    get ruby_project "command" = inr command ∧
    call_toLowerCase (or_else language (JStr "node")) = inr lang ∧
    tempDir ruby_run ∈ dirs (run_project_handler host ruby_project pristine).2 ∧
    image ruby_run
      = (if String.eqb lang "python" then "python:3.11" else "node:18") ∧
    launched (run_project_handler host ruby_project pristine).2
      = launched pristine ++
      [Spawned "docker"
         [JStr "run"; JStr "--rm";
          JStr "--network"; JStr "none";
          JStr "--memory"; JStr "512m";
          JStr "--cpus"; JStr "1";
          JStr "-v"; JStr (tempDir ruby_run +:+ ":/app");
          JStr "-w"; JStr "/app";
          JStr (image ruby_run);
          JStr "bash"; JStr "-lc";
          if truthy command then command
          else JStr (if String.eqb lang "python" then "python main.py"
                     else "node main.js")]].
Proof.
  split; [reflexivity|].
  apply (container_launch_policy host ruby_project pristine). reflexivity.
Defined.

(** What the sanitization does achieve: a path without a [..] segment,
    absolute or not, is written at or below a clean scratch directory. *)
Lemma dest_of_stays_within dir p :
  clean_absolute dir = true →
  no_dotdot (strip_leading_seps p) = true →
  within dir (dest_of dir (strip_leading_seps p)) = true.
Proof.
  intros Hdir Hdd. unfold dest_of.
  destruct (String.eqb (strip_leading_seps p) "") eqn:Hempty.
  - by apply PathFacts.join_stays_within.
  - apply String.eqb_neq in Hempty. by apply PathFacts.join_stays_within.
Qed.

(** C1 (the code does otherwise).  Only leading separators are cut from a
    path; its [..] segments stay and [path.join] resolves them.  The entry
    [../../etc/passwd] of a project is written to [/etc/passwd], which
    does not have the scratch directory as a prefix. *)
Theorem dotdot_path_leaves_the_workspace :
  let entry := file "../../etc/passwd" "x" in
  let r := run_project_handler host (project_request [entry] "node") pristine in
  safe_path entry = inr "../../etc/passwd" ∧
  dest_of "/tmp/vipuproject-Ab12Cd" "../../etc/passwd" = "/etc/passwd" ∧
  "/tmp/vipuproject-Ab12Cd" ∈ dirs r.2 ∧
  files r.2 !! "/etc/passwd" = Some (JStr "x") ∧
  String.prefix "/tmp/vipuproject-Ab12Cd" "/etc/passwd" = false ∧
  within "/tmp/vipuproject-Ab12Cd" "/etc/passwd" = false.
Proof.
  do 2 (split; [reflexivity|]). split; [by vm_compute|].
  split; [by vm_compute|]. split; reflexivity.
Qed.



(** The same entries in a whole request: the container is started and the
    file is in place. *)
Example pathless_entries_are_run :
  let r :=
    run_project_handler host
      (project_request [JObj [("content", JStr "x")]; file "//" "y"] "node")
      pristine in
  r.1 = inr (Some ruby_run) ∧
  files r.2 !! "/tmp/vipuproject-Ab12Cd/main.js" = Some (JStr "y") ∧
  sent r.2 = [].
Proof. split; [reflexivity|]. split; [by vm_compute|reflexivity]. Qed.

(** The earlier copy of the file calls [replace] on [f.path] itself: there
    an entry without [path] throws, and the request is answered 500. *)
Example earlier_copy_turns_down_missing_path :
  let r :=
    run_project_handler_earlier host
      (project_request [JObj [("content", JStr "x")]] "node") pristine in
  r.1 = inr None ∧
  sent r.2 = [error_response 500 "Docker execution failed"] ∧
  launched r.2 = [].
Proof. repeat split. Qed.

End ContainerRunner.

(** ** What the two runners have in common *)

Module Runners.
Import Js Eff Node Routes Samples Props Facts.

(** C9 (as stated, refuted).  A run of [/api/run] is started through
    [exec]: one command line, read by a shell on the host, not an
    interpreter with the file path as a separate argument. *)
Lemma run_is_started_through_a_shell :
  let started :=
    launched (run_attempt host (run_request "console.log(1)" "javascript")
                (Exited 0 "1" "") pristine).2 in
  started = [ViaShell ("node " +:+ dquote +:+ "/tmp/vipurun-Ab12Cd/main.js"
                         +:+ dquote) 8000] ∧
  ¬ Forall discrete_arguments started.
Proof.
  split; [reflexivity|]. intros H. by inversion H.
Qed.

(** C9 (amended).  [/api/run] starts its child through [exec] with the
    single command line [<interpreter> "<file>"] and a timeout of 8000 ms,
    so a shell on the host reads that line.  [/api/run-project] starts
    [docker] directly with its arguments one by one; a shell runs only
    inside the container, as [bash -lc <command>]. *)
Theorem launch_styles :
  (∀ env reqbody w dir w',
     run_handler env reqbody w = (inr (Some dir), w') →
     ∃ interpreter ext,
       (interpreter, ext) ∈ [("python3", ".py"); ("node", ".js")] ∧
       launched w' = launched w ++
         [ViaShell (interpreter +:+ " " +:+ dquote
                      +:+ Path.join [dir; "main" +:+ ext] +:+ dquote) 8000]) ∧
  (∀ env reqbody w st w',
     run_project_handler env reqbody w = (inr (Some st), w') →
     ∃ command defaultCmd,
       get reqbody "command" = inr command ∧
       launched w' = launched w ++
         [Spawned "docker"
            ([JStr "run"; JStr "--rm"; JStr "--network"; JStr "none";
              JStr "--memory"; JStr "512m"; JStr "--cpus"; JStr "1";
              JStr "-v"; JStr (tempDir st +:+ ":/app"); JStr "-w"; JStr "/app";
              JStr (image st)]
             ++ [JStr "bash"; JStr "-lc";
                 if truthy command then command else JStr defaultCmd])] ∧
       Forall discrete_arguments (drop (length (launched w)) (launched w'))).
Proof.
  split.
  - intros env reqbody w dir w' H.
    apply run_handler_pending in H
      as (code & language & suffix & _ & _ & _ & _ & _ & ->).
    unfold run_lang, run_ext, run_cmd.
    destruct (strict_eq_str language "python"); simpl.
    + exists "python3", ".py". split; [set_solver|done].
    + exists "node", ".js". split; [set_solver|done].
  - intros env reqbody w st w' H.
    apply (run_project_handler_pending env safe_path) in H
      as (files & language & command & lang & suffix & _ & _ & Hc & _ & _ & _
          & _ & Hl & _).
    exists command, (project_defaultCmd lang). split; [done|].
    rewrite Hl. split; [done|].
    rewrite drop_app_length. by repeat constructor.
Qed.

Lemma launch_styles_witness :
  (run_handler host python_run pristine
     = (inr (Some "/tmp/vipurun-Ab12Cd"),
        (run_handler host python_run pristine).2) ∧
   ∃ interpreter ext,
     (interpreter, ext) ∈ [("python3", ".py"); ("node", ".js")] ∧
     launched (run_handler host python_run pristine).2 = launched pristine ++
       [ViaShell (interpreter +:+ " " +:+ dquote
                    +:+ Path.join ["/tmp/vipurun-Ab12Cd"; "main" +:+ ext]
                    +:+ dquote) 8000]) ∧
  (run_project_handler host ruby_project pristine
     = (inr (Some ruby_run), (run_project_handler host ruby_project pristine).2) ∧
   ∃ command defaultCmd,
     get ruby_project "command" = inr command ∧
     launched (run_project_handler host ruby_project pristine).2
       = launched pristine ++
         [Spawned "docker"
            ([JStr "run"; JStr "--rm"; JStr "--network"; JStr "none";
              JStr "--memory"; JStr "512m"; JStr "--cpus"; JStr "1";
              JStr "-v"; JStr (tempDir ruby_run +:+ ":/app");
              JStr "-w"; JStr "/app"; JStr (image ruby_run)]
             ++ [JStr "bash"; JStr "-lc";
                 if truthy command then command else JStr defaultCmd])] ∧
     Forall discrete_arguments
       (drop (length (launched pristine))
          (launched (run_project_handler host ruby_project pristine).2))).
Proof.
  split.
  - split; [reflexivity|].
    apply (proj1 launch_styles host python_run pristine). reflexivity.
  - split; [reflexivity|].
    apply (proj2 launch_styles host ruby_project pristine). reflexivity.
Defined.







End Runners.

(** ** Lemmas on the string operations *)

Module StrFacts.
Import Str.

Lemma skip_length_app a b : skip (String.length a) (a +:+ b) = b.
Proof. induction a as [|c a IH]; [done|]. by rewrite StringFacts.app_cons. Qed.

Lemma remove_first_unfold pat s :
  remove_first pat s =
    if String.prefix pat s then skip (String.length pat) s
    else match s with
         | EmptyString => EmptyString
         | String c rest => String c (remove_first pat rest)
         end.
Proof. by destruct s. Qed.

(** A pattern at the very start is what gets cut. *)
Lemma remove_first_prefix pat t : remove_first pat (pat +:+ t) = t.
Proof.
  rewrite remove_first_unfold, StringFacts.prefix_app. apply skip_length_app.
Qed.

(** A string without the first character of the pattern is left as it is. *)
Lemma remove_first_absent c pat s :
  all_chars (λ x, negb (Ascii.eqb x c)) s = true →
  remove_first (String c pat) s = s.
Proof.
  induction s as [|x s IH]; [done|]. simpl.
  intros [Hx Hs]%andb_prop. apply negb_true_iff, Ascii.eqb_neq in Hx.
  destruct (ascii_dec c x) as [->|_]; [done|]. by rewrite IH.
Qed.

Lemma all_chars_impl (f g : ascii → bool) s :
  (∀ c, f c = true → g c = true) →
  all_chars f s = true → all_chars g s = true.
Proof.
  intros Hfg. induction s as [|c s IH]; [done|]. simpl.
  intros [Hc Hs]%andb_prop. by rewrite Hfg, IH.
Qed.

Lemma keep_chars_all f s : all_chars f (keep_chars f s) = true.
Proof.
  induction s as [|c s IH]; [done|]. simpl.
  destruct (f c) eqn:Hc; [|done]. simpl. by rewrite Hc.
Qed.

Lemma keep_chars_empty f s :
  keep_chars f s = "" → all_chars (λ c, negb (f c)) s = true.
Proof.
  induction s as [|c s IH]; [done|]. simpl.
  destruct (f c); [done|]. apply IH.
Qed.

(** Without the separator in it, a string is its own only segment. *)
Lemma split_on_absent sep s :
  all_chars (λ c, negb (Ascii.eqb c sep)) s = true → split_on sep s = [s].
Proof.
  induction s as [|c s IH]; [done|]. simpl.
  intros [Hc Hs]%andb_prop. apply negb_true_iff in Hc. by rewrite Hc, IH.
Qed.

Lemma hex_digit_lower n : Ascii.eqb (hex_digit n) "B" = false.
Proof.
  destruct n as [|p]; [done|].
  repeat (destruct p as [p|p|]; try reflexivity).
Qed.

Lemma toString_hex_lower bytes :
  all_chars (λ x, negb (Ascii.eqb x "B")) (toString_hex bytes) = true.
Proof.
  induction bytes as [|b bytes IH]; [done|]. simpl.
  by rewrite !hex_digit_lower, IH.
Qed.

Lemma toString_hex_nonempty bytes : bytes ≠ [] → toString_hex bytes ≠ "".
Proof. by destruct bytes. Qed.


Lemma length_app (a b : string) :
  String.length (a +:+ b) = (String.length a + String.length b)%nat.
Proof.
  induction a as [|c a IH]; [done|]. rewrite StringFacts.app_cons. simpl.
  by rewrite IH.
Qed.

End StrFacts.

(** Some values of the string operations. *)
Example remove_first_ex1 : Str.remove_first "Bearer " "Bearer abc" = "abc".
Proof. reflexivity. Qed.

Example remove_first_ex2 : Str.remove_first "Bearer " "xBearer Bearer y" = "xBearer y".
Proof. reflexivity. Qed.

Example last_segment_ex1 : Str.last_segment "." "a.tar.gz" = "gz".
Proof. reflexivity. Qed.

Example last_segment_ex2 : Str.last_segment "." "Makefile" = "Makefile".
Proof. reflexivity. Qed.

Example last_segment_ex3 : Str.last_segment "." "notes." = "".
Proof. reflexivity. Qed.

Example toString_hex_ex : Str.toString_hex ["000"; "255"; "171"]%char = "00ffab".
Proof. reflexivity. Qed.

Example is_media_ex :
  map Zip.is_media ["logo.PNG"; "png"; "a.png.txt"; ".Jpeg"; "x.mp3"]
    = [true; false; false; true; true].
Proof. reflexivity. Qed.

(** ** The admin login *)

Module AuthFacts.
Import Js Eff Auth MoreSamples.

Lemma token_of_bearer t : token_of (Some ("Bearer " +:+ t)) = Some t.
Proof.
  unfold token_of. simpl. f_equal. apply (StrFacts.remove_first_prefix "Bearer ").
Qed.

Lemma verify_valid h tokens :
  verify h tokens = valid_response ↔
  ∃ t, present (token_of h) = Some t ∧ t ∈ tokens.
Proof.
  unfold verify. destruct (present (token_of h)) as [t|].
  - destruct (decide (t ∈ tokens)); split; try done.
    + eauto.
    + by intros (t' & [= <-] & ?).
  - split; [done|]. by intros (t & ? & _).
Qed.

Lemma present_nonempty t : t ≠ "" → present (Some t) = Some t.
Proof. intros Ht%String.eqb_neq. simpl. by rewrite Ht. Qed.

Lemma verify_invalid h tokens :
  verify h tokens = valid_response ∨ verify h tokens = invalid_token.
Proof.
  unfold verify. destruct (present (token_of h)); [|by right].
  destruct (decide _); [by left|by right].
Qed.

(** With the admin's credentials, login answers with a fresh token;
    sent back as [Bearer <token>] it verifies, and every header that
    verified before still does. *)
Theorem login_token_verifies cfg random reqbody tokens :
  get reqbody "username" = inr (JStr (ADMIN_USERNAME cfg)) →
  get reqbody "password" = inr (JStr (ADMIN_PASSWORD cfg)) →
  random ≠ [] →
  let token := generateToken random in
  let after := (login cfg random reqbody tokens).2 in
  (login cfg random reqbody tokens).1 = inr (logged_in token) ∧
  verify (Some ("Bearer " +:+ token)) after = valid_response ∧
  ∀ h, verify h tokens = valid_response → verify h after = valid_response.
Proof.
  intros Hu Hp Hr token after. subst after. unfold login.
  rewrite Hu, Hp. simpl. rewrite !String.eqb_refl. simpl.
  split; [done|]. split.
  - apply verify_valid. exists token. rewrite token_of_bearer. split.
    + apply present_nonempty. by apply StrFacts.toString_hex_nonempty.
    + set_solver.
  - intros h (t & Ht & Hin)%verify_valid. apply verify_valid.
    exists t. split; [done|set_solver].
Qed.

Lemma login_token_verifies_witness :
  (get admin_login "username" = inr (JStr (ADMIN_USERNAME defaults)) ∧
   get admin_login "password" = inr (JStr (ADMIN_PASSWORD defaults)) ∧
   dice ≠ []) ∧
  (login defaults dice admin_login ∅).1 = inr (logged_in dice_token) ∧
  verify (Some ("Bearer " +:+ dice_token)) (login defaults dice admin_login ∅).2
    = valid_response ∧
  ∀ h, verify h ∅ = valid_response →
       verify h (login defaults dice admin_login ∅).2 = valid_response.
Proof.
  split; [by repeat split|].
  by apply (login_token_verifies defaults dice admin_login ∅).
Defined.

(** With any other username or password, of whatever type, login answers
    401 and no token is added. *)
Theorem login_rejects_wrong_credentials cfg random reqbody username password
    tokens :
  get reqbody "username" = inr username →
  get reqbody "password" = inr password →
  username ≠ JStr (ADMIN_USERNAME cfg) ∨ password ≠ JStr (ADMIN_PASSWORD cfg) →
  login cfg random reqbody tokens = (inr invalid_credentials, tokens).
Proof.
  intros Hu Hp Hbad. unfold login. rewrite Hu, Hp.
  destruct (strict_eq_str username (ADMIN_USERNAME cfg)) eqn:Heu; [|done].
  destruct (strict_eq_str password (ADMIN_PASSWORD cfg)) eqn:Hep; [|done].
  apply Facts.strict_eq_str_true in Heu, Hep. by destruct Hbad.
Qed.

Lemma login_rejects_wrong_credentials_witness :
  (get guessed_login "username" = inr (JStr "admin") ∧
   get guessed_login "password" = inr (JStr "letmein") ∧
   (JStr "admin" ≠ JStr (ADMIN_USERNAME defaults) ∨
    JStr "letmein" ≠ JStr (ADMIN_PASSWORD defaults))) ∧
  login defaults dice guessed_login {[other_token]}
    = (inr invalid_credentials, {[other_token]}).
Proof.
  split; [repeat split; by right|].
  apply (login_rejects_wrong_credentials defaults dice guessed_login
           (JStr "admin") (JStr "letmein")); [done|done|by right].
Defined.

(** After a logout with some header, that header does not verify any
    more, whatever it was; logout itself always answers 200. *)
Theorem logout_revokes h tokens :
  (logout h tokens).1
    = {| status := 200; body := JObj [("message", JStr "Logged out")] |} ∧
  verify h (logout h tokens).2 = invalid_token.
Proof.
  split; [done|].
  destruct (verify_invalid h (logout h tokens).2) as [Hv|Hv]; [|done].
  apply verify_valid in Hv as (t & Ht & Hin). simpl in Hin.
  rewrite Ht in Hin. apply elem_of_difference in Hin as [_ Hout].
  exfalso. apply Hout. by apply elem_of_singleton.
Qed.

(** A logout touches one token only: a header that carries another token
    verifies afterwards exactly as it did before. *)
Theorem logout_spares_other_tokens h h' tokens :
  present (token_of h') ≠ present (token_of h) →
  verify h' (logout h tokens).2 = verify h' tokens.
Proof.
  intros Hne. unfold verify, logout. simpl.
  destruct (present (token_of h')) as [t'|]; [|done].
  destruct (present (token_of h)) as [t|]; [|done].
  assert (t' ≠ t) as Hdiff by congruence.
  assert (t' ∈ tokens ∖ {[t]} ↔ t' ∈ tokens) as Hsame.
  { rewrite elem_of_difference, elem_of_singleton. tauto. }
  destruct (decide (t' ∈ tokens)), (decide (t' ∈ tokens ∖ {[t]}));
    [done|exfalso; tauto|exfalso; tauto|done].
Qed.

Lemma logout_spares_other_tokens_witness :
  present (token_of (Some ("Bearer " +:+ other_token)))
    ≠ present (token_of (Some ("Bearer " +:+ dice_token))) ∧
  verify (Some ("Bearer " +:+ other_token))
      (logout (Some ("Bearer " +:+ dice_token)) {[dice_token; other_token]}).2
    = verify (Some ("Bearer " +:+ other_token)) {[dice_token; other_token]}.
Proof.
  split; [by vm_compute|].
  apply (logout_spares_other_tokens (Some ("Bearer " +:+ dice_token))
           (Some ("Bearer " +:+ other_token))).
  by vm_compute.
Defined.

(** The scheme is not checked: a token that login handed out verifies
    also when the header is the bare token, without [Bearer ] before it. *)
Theorem bare_token_verifies random tokens :
  random ≠ [] →
  generateToken random ∈ tokens →
  verify (Some (generateToken random)) tokens = valid_response.
Proof.
  intros Hr Hin. apply verify_valid. exists (generateToken random).
  split; [|done]. unfold token_of. simpl.
  rewrite (StrFacts.remove_first_absent "B" "earer ")
    by apply StrFacts.toString_hex_lower.
  apply present_nonempty. by apply StrFacts.toString_hex_nonempty.
Qed.

Lemma bare_token_verifies_witness :
  (dice ≠ [] ∧ generateToken dice ∈ ({[dice_token]} : gset string)) ∧
  verify (Some (generateToken dice)) {[dice_token]} = valid_response.
Proof.
  split; [split; [done|set_solver]|].
  apply (bare_token_verifies dice); [done|set_solver].
Defined.

End AuthFacts.

(** ** The two zip endpoints *)

Module ZipFacts.
Import Js Eff Zip MoreSamples.

Lemma name_char_not_sep c : is_name_char c = true → is_sep c = false.
Proof. destruct c as [[][][][][][][][]]; by vm_compute. Qed.

Lemma name_char_dot : is_name_char "." = true.
Proof. reflexivity. Qed.

(** Whenever the file name keeps at least one character of letters,
    digits, [_], [.] and [-], the archive has one entry, named by exactly
    those characters of the file name: no slash and no backslash is in
    it. *)
Theorem zip_entry_name_is_clean reqbody code language filename :
  get reqbody "code" = inr code →
  get reqbody "language" = inr language →
  get reqbody "filename" = inr (JStr filename) →
  truthy code = true →
  clean_name filename ≠ "" →
  zip_code false reqbody = inr (ZipArchive (clean_name filename) code) ∧
  Str.all_chars is_name_char (clean_name filename) = true ∧
  Str.all_chars (λ c, negb (is_sep c)) (clean_name filename) = true.
Proof.
  intros Hc Hl Hf Ht Hclean.
  assert (Str.all_chars is_name_char (clean_name filename) = true) as Hall
    by apply StrFacts.keep_chars_all.
  split; [|split; [done|]].
  - unfold zip_code. rewrite Hc, Hl, Hf, Ht. simpl.
    assert (filename ≠ "") as Hne%String.eqb_neq by (by intros ->).
    unfold zip_ext. simpl. rewrite Hne. simpl.
    apply String.eqb_neq in Hclean. by rewrite Hclean.
  - eapply StrFacts.all_chars_impl; [|exact Hall].
    intros c Hcname. by rewrite name_char_not_sep.
Qed.

Lemma zip_entry_name_is_clean_witness :
  let reqbody :=
    JObj [("code", JStr "x"); ("filename", JStr "../../etc/pass wd.txt")] in
  (get reqbody "code" = inr (JStr "x") ∧
   get reqbody "language" = inr JUndefined ∧
   get reqbody "filename" = inr (JStr "../../etc/pass wd.txt") ∧
   truthy (JStr "x") = true ∧
   clean_name "../../etc/pass wd.txt" ≠ "") ∧
  zip_code false reqbody
    = inr (ZipArchive (clean_name "../../etc/pass wd.txt") (JStr "x")) ∧
  Str.all_chars is_name_char (clean_name "../../etc/pass wd.txt") = true ∧
  Str.all_chars (λ c, negb (is_sep c)) (clean_name "../../etc/pass wd.txt")
    = true.
Proof.
  intros reqbody. split; [by repeat split|].
  by apply (zip_entry_name_is_clean reqbody (JStr "x") JUndefined).
Defined.

Lemma clean_name_empty_no_dot filename :
  clean_name filename = "" →
  Str.all_chars (λ c, negb (Ascii.eqb c ".")) filename = true.
Proof.
  intros H%StrFacts.keep_chars_empty.
  eapply StrFacts.all_chars_impl; [|exact H].
  intros c Hc. simpl in Hc. apply negb_true_iff in Hc.
  apply negb_true_iff. destruct (Ascii.eqb c ".") eqn:Hdot; [|done].
  apply Ascii.eqb_eq in Hdot as ->. by rewrite name_char_dot in Hc.
Qed.

(** When the file name is not empty but keeps none of those characters,
    the fallback name takes the whole file name, as it came, for its
    extension: the entry is [main.] followed by the unfiltered name. *)
Theorem zip_fallback_name_keeps_raw_filename reqbody code language filename :
  get reqbody "code" = inr code →
  get reqbody "language" = inr language →
  get reqbody "filename" = inr (JStr filename) →
  truthy code = true →
  filename ≠ "" →
  clean_name filename = "" →
  zip_code false reqbody = inr (ZipArchive ("main." +:+ filename) code).
Proof.
  intros Hc Hl Hf Ht Hne%String.eqb_neq Hclean.
  unfold zip_code. rewrite Hc, Hl, Hf, Ht. simpl.
  unfold zip_ext. simpl. rewrite Hne. simpl.
  unfold Str.last_segment.
  rewrite StrFacts.split_on_absent by (by apply clean_name_empty_no_dot).
  simpl. by rewrite Hne, Hclean.
Qed.

Lemma zip_fallback_name_keeps_raw_filename_witness :
  let reqbody := JObj [("code", JStr "x"); ("filename", JStr "/~/")] in
  (get reqbody "code" = inr (JStr "x") ∧
   get reqbody "language" = inr JUndefined ∧
   get reqbody "filename" = inr (JStr "/~/") ∧
   truthy (JStr "x") = true ∧
   "/~/" ≠ "" ∧
   clean_name "/~/" = "") ∧
  zip_code false reqbody = inr (ZipArchive ("main." +:+ "/~/") (JStr "x")).
Proof.
  intros reqbody. split; [by repeat split|].
  by apply (zip_fallback_name_keeps_raw_filename reqbody (JStr "x") JUndefined).
Defined.

(** *** The sample taken from an uploaded archive *)

Lemma sample_loop_cons e rest files :
  sample_loop (e :: rest) files =
    if (30 <=? length files)%nat then files
    else if isDirectory e then sample_loop rest files
    else if is_media (entryName e) then sample_loop rest files
    else sample_loop rest (files ++ [file_text e]).
Proof. reflexivity. Qed.

Lemma filter_eligible_cons e rest :
  List.filter eligible (e :: rest) =
    if eligible e then e :: List.filter eligible rest
    else List.filter eligible rest.
Proof. reflexivity. Qed.

Lemma sample_loop_take entries files :
  (length files ≤ 30)%nat →
  sample_loop entries files =
    files ++ take (30 - length files)
               (file_text <$> List.filter eligible entries).
Proof.
  revert files. induction entries as [|e entries IH]; intros files Hlen.
  { change (sample_loop [] files) with files.
    change (file_text <$> List.filter eligible []) with (@nil string).
    by rewrite take_nil, app_nil_r. }
  rewrite sample_loop_cons, filter_eligible_cons. unfold eligible at 1.
  destruct (30 <=? length files)%nat eqn:Hfull.
  - apply Nat.leb_le in Hfull.
    replace (30 - length files)%nat with 0%nat by lia.
    by rewrite take_0, app_nil_r.
  - apply Nat.leb_gt in Hfull.
    destruct (isDirectory e); [by apply IH|].
    destruct (is_media (entryName e)); [by apply IH|].
    cbn [negb andb]. rewrite fmap_cons.
    rewrite IH by (rewrite length_app; cbn [length]; lia).
    rewrite length_app. cbn [length].
    replace (30 - length files)%nat with (S (30 - (length files + 1)))%nat
      by lia.
    rewrite firstn_cons. by rewrite <- app_assoc.
Qed.

(** The loop takes the first thirty entries that are neither directories
    nor media files, in the order of the archive, and nothing else. *)
Theorem sample_files_first_thirty entries :
  sample_files entries = take 30 (file_text <$> List.filter eligible entries).
Proof.
  unfold sample_files. by rewrite sample_loop_take by (cbn [length]; lia).
Qed.


End ZipFacts.

(** ** The assistant endpoints *)

Module ChatFacts.
Import Js Eff Chat MoreSamples.

(** [buildVipuMessages] hands the caller's messages on unchanged and in
    order, after one system message and, when a code context was given,
    one user message that carries it. *)
Theorem buildVipuMessages_keeps_messages history messages codeContext :
  ∃ system context,
    buildVipuMessages history messages codeContext
      = system :: context ++ messages ∧
    role system = "system" ∧
    match given codeContext with
    | Some ctx =>
        context = [{| role := "user";
                      content := "Here is the current code/project context:"
                                   +:+ Str.newline +:+ ctx |}]
    | None => context = []
    end.
Proof.
  unfold buildVipuMessages. destruct (given codeContext) as [ctx|];
    eexists _, _; (split; [reflexivity|]); by split.
Qed.



Lemma filter_user_app l1 l2 :
  List.filter (λ m, String.eqb (role m) "user") (l1 ++ l2) =
    List.filter (λ m, String.eqb (role m) "user") l1
      ++ List.filter (λ m, String.eqb (role m) "user") l2.
Proof. apply List.filter_app. Qed.

Lemma filter_user_none l :
  Forall (λ m, role m ≠ "user") l →
  List.filter (λ m, String.eqb (role m) "user") l = [].
Proof.
  induction 1 as [|m l Hm _ IH]; [done|]. simpl.
  apply String.eqb_neq in Hm. by rewrite Hm.
Qed.

(** The question is the content of the last message with role [user],
    whatever comes before it and whatever other messages follow it. *)
Theorem last_user_question_is_last before m after :
  role m = "user" →
  Forall (λ m', role m' ≠ "user") after →
  last_user_question (before ++ m :: after) = content m.
Proof.
  intros Hm Hafter. unfold last_user_question.
  rewrite filter_user_app. cbn [List.filter].
  rewrite Hm, String.eqb_refl, (filter_user_none after) by done.
  by rewrite rev_app_distr.
Qed.

Lemma last_user_question_is_last_witness :
  (role (question "second") = "user" ∧
   Forall (λ m', role m' ≠ "user") [answer "again"]) ∧
  last_user_question
    ([question "first"; answer "reply"] ++ question "second" :: [answer "again"])
    = content (question "second").
Proof.
  split; [split; [done|by repeat constructor]|].
  apply (last_user_question_is_last [question "first"; answer "reply"]);
    [done|by repeat constructor].
Defined.

(** Without a message of role [user], the stock sentence is asked. *)
Theorem last_user_question_default messages :
  Forall (λ m, role m ≠ "user") messages →
  last_user_question messages = "No explicit user question provided.".
Proof.
  intros H. unfold last_user_question. by rewrite filter_user_none.
Qed.

Lemma last_user_question_default_witness :
  Forall (λ m, role m ≠ "user") [answer "hello"] ∧
  last_user_question [answer "hello"] = "No explicit user question provided.".
Proof.
  split; [by repeat constructor|].
  apply (last_user_question_default [answer "hello"]). by repeat constructor.
Defined.

(** [usedResearch: true] is only ever answered when a Perplexity key is
    set, the research for the last user question came back non-empty, and
    the first call to the model succeeded with the reply that is sent. *)
Theorem usedResearch_is_honest env req reply :
  hybrid_chat env req = {| status := 200; body := reply_body reply true |} →
  perplexityKey env ≠ "" ∧
  (∃ found,
     research env (last_user_question (or_empty (req_messages req)))
       = Some found ∧ found ≠ "") ∧
  complete env (hybrid_messages env req) 4000 = Some reply.
Proof.
  unfold hybrid_chat, researchSummary.
  destruct (has_openai env); simpl; [|done].
  destruct (complete env (hybrid_messages env req) 4000) as [r|].
  - intros [= -> Hused]. apply andb_prop in Hused as [Hfound Hkey].
    apply negb_true_iff in Hkey. rewrite Hkey in Hfound.
    split; [by apply String.eqb_neq|]. split; [|done].
    destruct (research env _) as [found|]; [|done].
    exists found. split; [done|]. simpl in Hfound.
    destruct (String.eqb found "") eqn:Hempty; [done|].
    by apply String.eqb_neq.
  - destruct (complete env (fallback_messages req) 2000); done.
Qed.

Lemma usedResearch_is_honest_witness :
  hybrid_chat full_service two_turns
    = {| status := 200; body := reply_body "done" true |} ∧
  perplexityKey full_service ≠ "" ∧
  (∃ found,
     research full_service
       (last_user_question (or_empty (req_messages two_turns)))
       = Some found ∧ found ≠ "") ∧
  complete full_service (hybrid_messages full_service two_turns) 4000
    = Some "done".
Proof.
  split; [reflexivity|].
  by apply (usedResearch_is_honest full_service two_turns "done").
Defined.

(** In [/api/analyze-zip] the uploaded file is handed to [unlinkSync]
    exactly once when [openai] is configured, whether the archive opens or
    not and whether the model answers or not; when [openai] is not
    configured the answer is 500 and the upload is left where it is. *)
Theorem analyze_zip_unlinks_upload env open_zip zipPath :
  if has_openai env
  then (analyze_zip env open_zip (Some zipPath)).2 = [zipPath]
  else analyze_zip env open_zip (Some zipPath)
         = ({| status := 500;
               body := JObj [("error", JStr "API key missing")] |}, []).
Proof.
  unfold analyze_zip. by destruct (has_openai env).
Qed.

End ChatFacts.

(** ** The chat memory *)

Module StorageFacts.
Import Js Chat Storage MoreSamples.

Lemma older_total : Total older.
Proof. intros a b. unfold older. lia. Qed.

Lemma older_trans : Transitive older.
Proof. intros a b c. unfold older. lia. Qed.

Lemma newer_total : Total (flip older).
Proof. intros a b. unfold flip, older. lia. Qed.

Lemma newer_trans : Transitive (flip older).
Proof. intros a b c. unfold flip, older. lia. Qed.

(** The first [n] of a sorted arrangement: as many as there are, up to
    [n]; sorted; and each one before all that were left out. *)
Lemma take_sorted (R : relation ChatRow) `{∀ x y, Decision (R x y)}
    (Htrans : Transitive R) (Htotal : Total R) n (rows arranged : list ChatRow) :
  arranged ≡ₚ rows →
  let result := take n (merge_sort R arranged) in
  length result = (n `min` length rows)%nat ∧
  StronglySorted R result ∧
  ∃ rest, result ++ rest ≡ₚ rows ∧
          ∀ r r', r ∈ result → r' ∈ rest → R r r'.
Proof.
  intros Hperm result. subst result.
  pose proof (StronglySorted_merge_sort R arranged) as Hsorted.
  pose proof (merge_sort_Permutation R arranged) as Hsame.
  rewrite <- (take_drop n (merge_sort R arranged)) in Hsorted.
  split; [|split].
  - rewrite length_take. by rewrite Hsame, Hperm.
  - by eapply StronglySorted_app_1_l.
  - exists (drop n (merge_sort R arranged)). split.
    + by rewrite take_drop, Hsame.
    + intros r r' Hr Hr'. by eapply StronglySorted_app_1_elem_of.
Qed.

Lemma elem_of_filter_list {A} (f : A → bool) (l : list A) x :
  x ∈ List.filter f l ↔ x ∈ l ∧ f x = true.
Proof.
  rewrite !list_elem_of_In, List.filter_In. done.
Qed.

(** [getChatMessages] answers with the oldest messages of the project (of
    no project, when [projectId] is null or empty): as many as [limit]
    allows, oldest first, and every message it leaves out is at least as
    new as every message it returns. *)
Theorem getChatMessages_oldest_first pg limit projectId db :
  let all := List.filter (λ r, in_scope projectId (row_projectId r))
               (chat_messages db) in
  let result := getChatMessages pg limit projectId db in
  length result = (limit `min` length all)%nat ∧
  StronglySorted older result ∧
  ∃ rest, result ++ rest ≡ₚ all ∧
          ∀ r r', r ∈ result → r' ∈ rest → older r r'.
Proof.
  intros all result. subst result. unfold getChatMessages. fold all.
  apply (take_sorted older older_trans older_total).
  apply arrange_chat_perm.
Qed.

(** [getRecentMessages] answers with the newest twenty, newest first. *)
Theorem getRecentMessages_newest_first pg projectId db :
  let all := List.filter (λ r, in_scope projectId (row_projectId r))
               (chat_messages db) in
  let result := getRecentMessages pg projectId db in
  length result = (20 `min` length all)%nat ∧
  StronglySorted (flip older) result ∧
  ∃ rest, result ++ rest ≡ₚ all ∧
          ∀ r r', r ∈ result → r' ∈ rest → older r' r.
Proof.
  intros all result. subst result. unfold getRecentMessages. fold all.
  apply (take_sorted (flip older) newer_trans newer_total).
  apply arrange_chat_perm.
Qed.

Lemma filter_filter_implied {A} (f g : A → bool) (l : list A) :
  (∀ x, f x = true → g x = true) →
  List.filter f (List.filter g l) = List.filter f l.
Proof.
  intros Hfg. induction l as [|x l IH]; [done|]. cbn [List.filter].
  destruct (g x) eqn:Hg.
  - cbn [List.filter]. by rewrite IH.
  - destruct (f x) eqn:Hf; [|done]. apply Hfg in Hf. congruence.
Qed.

Lemma filter_filter_excluded {A} (f g : A → bool) (l : list A) :
  (∀ x, f x = true → g x = false) →
  List.filter f (List.filter g l) = [].
Proof.
  intros Hfg. induction l as [|x l IH]; [done|]. cbn [List.filter].
  destruct (g x) eqn:Hg; [|done].
  cbn [List.filter]. destruct (f x) eqn:Hf; [|done].
  apply Hfg in Hf. congruence.
Qed.

Lemma other_scope projectId projectId' column :
  Auth.present projectId' ≠ Auth.present projectId →
  in_scope projectId' column = true →
  negb (in_scope projectId column) = true.
Proof.
  unfold in_scope. intros Hne.
  destruct (Auth.present projectId') as [p'|], (Auth.present projectId) as [p|],
    column as [c|]; try done.
  intros ->%String.eqb_eq. apply negb_true_iff, String.eqb_neq. congruence.
Qed.

Lemma arrange_chat_nil pg : arrange_chat pg [] = [].
Proof. apply Permutation_nil_r, arrange_chat_perm. Qed.

Lemma arrange_summaries_nil pg : arrange_summaries pg [] = [].
Proof. apply Permutation_nil_r, arrange_summaries_perm. Qed.

(** After [clearChatHistory] for a project, that project has no chat
    message and no memory summary any more. *)
Theorem clearChatHistory_empties_project pg limit projectId db :
  getChatMessages pg limit projectId (clearChatHistory projectId db) = [] ∧
  getRecentMessages pg projectId (clearChatHistory projectId db) = [] ∧
  getMemorySummary pg projectId (clearChatHistory projectId db) = None.
Proof.
  unfold getChatMessages, getRecentMessages, getMemorySummary, clearChatHistory.
  cbn [chat_messages memory_summaries].
  rewrite !filter_filter_excluded
    by (intros x Hx; by rewrite Hx).
  rewrite arrange_chat_nil, arrange_summaries_nil.
  change (merge_sort older []) with (@nil ChatRow).
  change (merge_sort (flip older) []) with (@nil ChatRow).
  by rewrite take_nil.
Qed.

(** [clearChatHistory] for one project leaves the messages and the
    summary of every other project as they were. *)
Theorem clearChatHistory_spares_other_projects pg limit projectId projectId' db :
  Auth.present projectId' ≠ Auth.present projectId →
  getChatMessages pg limit projectId' (clearChatHistory projectId db)
    = getChatMessages pg limit projectId' db ∧
  getMemorySummary pg projectId' (clearChatHistory projectId db)
    = getMemorySummary pg projectId' db.
Proof.
  intros Hne.
  unfold getChatMessages, getMemorySummary, clearChatHistory.
  cbn [chat_messages memory_summaries].
  rewrite !filter_filter_implied; [done| |];
    intros x Hx; by eapply other_scope.
Qed.

Lemma clearChatHistory_spares_other_projects_witness :
  Auth.present (Some "p2") ≠ Auth.present (Some "p1") ∧
  getChatMessages in_order 50 (Some "p2") (clearChatHistory (Some "p1") small_db)
    = getChatMessages in_order 50 (Some "p2") small_db ∧
  getMemorySummary in_order (Some "p2") (clearChatHistory (Some "p1") small_db)
    = getMemorySummary in_order (Some "p2") small_db.
Proof.
  split; [done|].
  by apply (clearChatHistory_spares_other_projects in_order 50 (Some "p1")
              (Some "p2") small_db).
Defined.

Lemma filter_scope_updated projectId summary now l :
  List.filter (λ r, in_scope projectId (sum_projectId r))
    (map (λ r, if in_scope projectId (sum_projectId r)
               then {| sum_id := sum_id r; sum_projectId := sum_projectId r;
                       sum_summary := summary; sum_updatedAt := now |}
               else r) l)
  = map (λ r, {| sum_id := sum_id r; sum_projectId := sum_projectId r;
                 sum_summary := summary; sum_updatedAt := now |})
      (List.filter (λ r, in_scope projectId (sum_projectId r)) l).
Proof.
  induction l as [|r l IH]; [done|]. cbn [map List.filter].
  destruct (in_scope projectId (sum_projectId r)) eqn:Hr;
    cbn [sum_projectId]; rewrite Hr; [cbn [map]|]; by rewrite IH.
Qed.

Lemma own_scope projectId :
  match projectId with Some p => p ≠ "" | None => True end →
  in_scope projectId projectId = true.
Proof.
  unfold in_scope. destruct projectId as [p|]; [|done].
  intros Hp%String.eqb_neq. simpl. rewrite Hp. apply String.eqb_refl.
Qed.

(** What [saveMemorySummary] saved is what [getMemorySummary] reads back,
    for no project or for a project that exists, unless the summary stored
    before was the empty string. *)
Theorem saveMemorySummary_round_trip pg projectId summary now db :
  match projectId with Some p => p ≠ "" ∧ p ∈ projects db | None => True end →
  getMemorySummary pg projectId db ≠ Some "" →
  (saveMemorySummary pg projectId summary now db).1 = inr tt ∧
  getMemorySummary pg projectId (saveMemorySummary pg projectId summary now db).2
    = Some summary.
Proof.
  intros Hproject Hstored. unfold saveMemorySummary.
  destruct (getMemorySummary pg projectId db) as [stored|] eqn:Hget.
  - assert (stored ≠ "") as Hne%String.eqb_neq by congruence.
    simpl. rewrite Hne. split; [done|].
    unfold getMemorySummary in *. cbn [snd memory_summaries].
    rewrite filter_scope_updated.
    set (mine := List.filter _ (memory_summaries db)) in *.
    set (renew := λ r, {| sum_id := sum_id r; sum_projectId := sum_projectId r;
                          sum_summary := summary; sum_updatedAt := now |}).
    pose proof (arrange_summaries_perm pg mine) as Hold.
    pose proof (arrange_summaries_perm pg (map renew mine)) as Hnew.
    destruct (arrange_summaries pg mine) as [|first rest]; [done|].
    destruct (arrange_summaries pg (map renew mine)) as [|row rows].
    + apply Permutation_length in Hold, Hnew.
      rewrite length_map in Hnew. simpl in *. lia.
    + assert (row ∈ map renew mine) as Hrow
        by (rewrite <- Hnew; apply list_elem_of_here).
      apply list_elem_of_fmap in Hrow as (r & -> & _). done.
  - simpl.
    assert (match projectId with
            | Some p => bool_decide (p ∈ projects db)
            | None => true
            end = true) as ->.
    { destruct projectId as [p|]; [|done]. apply bool_decide_eq_true.
      by destruct Hproject. }
    split; [done|]. unfold getMemorySummary in *. cbn [snd memory_summaries].
    rewrite List.filter_app. cbn [List.filter sum_projectId].
    rewrite own_scope by (destruct projectId; [tauto|done]).
    set (mine := List.filter _ (memory_summaries db)) in *.
    assert (mine = []) as ->.
    { apply Permutation_nil_r. rewrite <- (arrange_summaries_perm pg mine).
      by destruct (arrange_summaries pg mine). }
    cbn [app].
    match goal with
    | |- context [arrange_summaries pg [?new]] =>
        pose proof (arrange_summaries_perm pg [new]) as Hone;
        apply Permutation_singleton_r in Hone; rewrite Hone
    end.
    done.
Qed.

Lemma saveMemorySummary_round_trip_witness :
  (match Some "p1" with
   | Some p => p ≠ "" ∧ p ∈ projects small_db
   | None => True
   end ∧
   getMemorySummary in_order (Some "p1") small_db ≠ Some "") ∧
  (saveMemorySummary in_order (Some "p1") "likes OCaml" 50 small_db).1 = inr tt ∧
  getMemorySummary in_order (Some "p1")
    (saveMemorySummary in_order (Some "p1") "likes OCaml" 50 small_db).2
    = Some "likes OCaml".
Proof.
  assert (match Some "p1" with
          | Some p => p ≠ "" ∧ p ∈ projects small_db
          | None => True
          end) as Hproject by (split; [done|by vm_compute]).
  split; [split; [exact Hproject|done]|].
  by apply (saveMemorySummary_round_trip in_order (Some "p1") "likes OCaml" 50
              small_db).
Defined.

(** When the summary stored for the project is the empty string,
    [saveMemorySummary] does not update it: it adds a second row for the
    project and leaves the empty one in place. *)
Theorem saveMemorySummary_keeps_empty_summary pg projectId summary now db :
  getMemorySummary pg projectId db = Some "" →
  match projectId with Some p => p ∈ projects db | None => True end →
  memory_summaries (saveMemorySummary pg projectId summary now db).2
    = memory_summaries db ++
        [{| sum_id := summary_seq db + 1; sum_projectId := projectId;
            sum_summary := summary; sum_updatedAt := now |}].
Proof.
  intros Hget Hproject. unfold saveMemorySummary. rewrite Hget. simpl.
  destruct projectId as [p|]; [|done].
  by rewrite bool_decide_eq_true_2.
Qed.

Lemma saveMemorySummary_keeps_empty_summary_witness :
  (getMemorySummary in_order (Some "p2") small_db = Some "" ∧
   match Some "p2" with Some p => p ∈ projects small_db | None => True end) ∧
  memory_summaries (saveMemorySummary in_order (Some "p2") "new" 50 small_db).2
    = memory_summaries small_db ++
        [{| sum_id := summary_seq small_db + 1; sum_projectId := Some "p2";
            sum_summary := "new"; sum_updatedAt := 50 |}].
Proof.
  assert (match Some "p2" with
          | Some p => p ∈ projects small_db
          | None => True
          end) as Hproject by (by vm_compute).
  split; [by split|].
  by apply (saveMemorySummary_keeps_empty_summary in_order (Some "p2") "new" 50
              small_db).
Defined.

(** With rows handed out in the order of insertion, the summary read back
    after that save is still the empty one. *)
Example empty_summary_is_read_back :
  getMemorySummary in_order (Some "p2")
    (saveMemorySummary in_order (Some "p2") "new" 50 small_db).2 = Some "".
Proof. reflexivity. Qed.

End StorageFacts.

(** ** More on the two runners *)

Module RunnerFacts.
Import Js Eff Node Routes Samples Props Facts.

Lemma dest_of_stays_within_witness :
  (clean_absolute "/tmp/vipuproject-Ab12Cd" = true ∧
   no_dotdot (strip_leading_seps "//etc/./passwd") = true) ∧
  within "/tmp/vipuproject-Ab12Cd"
    (dest_of "/tmp/vipuproject-Ab12Cd" (strip_leading_seps "//etc/./passwd"))
    = true.
Proof.
  split; [by split|].
  by apply (ContainerRunner.dest_of_stays_within "/tmp/vipuproject-Ab12Cd"
              "//etc/./passwd").
Defined.

Lemma deliver_close_cleans_witness :
  (EvClose (JNum 0) ∈ [EvStdout "1"; EvClose (JNum 0)] ∧
   deliver [EvStdout "1"; EvClose (JNum 0)] ruby_run
       (run_project_handler host ruby_project pristine).2
     = (inr {| tempDir := "/tmp/vipuproject-Ab12Cd"; image := "node:18";
               stdout := "1"; stderr := ""; timer := false |},
        (deliver [EvStdout "1"; EvClose (JNum 0)] ruby_run
           (run_project_handler host ruby_project pristine).2).2)) ∧
  tempDir ruby_run ∉
    dirs (deliver [EvStdout "1"; EvClose (JNum 0)] ruby_run
            (run_project_handler host ruby_project pristine).2).2.
Proof.
  assert (EvClose (JNum 0) ∈ [EvStdout "1"; EvClose (JNum 0)]) as Hin
    by apply list_elem_of_further, list_elem_of_here.
  split; [split; [exact Hin|reflexivity]|].
  apply (deliver_close_cleans [EvStdout "1"; EvClose (JNum 0)] (JNum 0)
           ruby_run (run_project_handler host ruby_project pristine).2
           {| tempDir := "/tmp/vipuproject-Ab12Cd"; image := "node:18";
              stdout := "1"; stderr := ""; timer := false |});
    [exact Hin|reflexivity].
Defined.

Lemma run_project_handler_failure_cleans_witness :
  let dir := Path.join [tmpdir host; "vipuproject-"] +:+ "Ab12Cd" in
  (fresh host = Some "Ab12Cd" ∧
   dir ≠ "" ∧
   (dir ∉ dirs pristine) ∧
   fst (run_project_handler_with host safe_path
          (project_request [JNull] "node") pristine) = inr None) ∧
  dir ∉ dirs (run_project_handler_with host safe_path
                (project_request [JNull] "node") pristine).2.
Proof.
  intros dir.
  assert (dir ∉ dirs pristine) as Hnew by apply not_elem_of_empty.
  split; [by repeat split|].
  by apply (run_project_handler_failure_cleans host safe_path
              (project_request [JNull] "node") "Ab12Cd" pristine).
Defined.

(** A request without code (missing, empty, or any other falsy value) is
    answered 400 and nothing else happens: no directory, no file, no
    process. *)
Theorem run_rejects_missing_code env reqbody code w :
  get reqbody "code" = inr code →
  truthy code = false →
  run_handler env reqbody w =
    (inr None,
     {| dirs := dirs w; files := files w; launched := launched w;
        signals := signals w;
        sent := sent w ++ [error_response 400 "Code required"] |}).
Proof.
  intros Hcode Hfalsy. unfold run_handler, res_json. rewrite Hcode.
  eff_unfold. destruct reqbody; simplify_eq/=;
    first [done | by rewrite Hfalsy].
Qed.

Lemma run_rejects_missing_code_witness :
  (get (JObj [("language", JStr "python")]) "code" = inr JUndefined ∧
   truthy JUndefined = false) ∧
  run_handler host (JObj [("language", JStr "python")]) pristine =
    (inr None,
     {| dirs := dirs pristine; files := files pristine;
        launched := launched pristine; signals := signals pristine;
        sent := sent pristine ++ [error_response 400 "Code required"] |}).
Proof.
  split; [by split|].
  by apply (run_rejects_missing_code host (JObj [("language", JStr "python")])
              JUndefined).
Defined.







Lemma deliver_signals evs st w :
  signals (deliver evs st w).2 = signals w ∨
  (timer st = true ∧ signals (deliver evs st w).2 = signals w ++ ["SIGKILL"]).
Proof.
  revert st w. induction evs as [|ev evs IH]; intros st w; [by left|].
  cbn [deliver]. eff_unfold.
  destruct ev as [d|d|code|errname|]; cbn [on_event]; eff_unfold.
  - destruct (IH {| tempDir := tempDir st; image := image st;
                    stdout := stdout st +:+ d; stderr := stderr st;
                    timer := timer st |} w) as [Hsame|[Ht Hkill]];
      [by left|by right].
  - destruct (IH {| tempDir := tempDir st; image := image st;
                    stdout := stdout st; stderr := stderr st +:+ d;
                    timer := timer st |} w) as [Hsame|[Ht Hkill]];
      [by left|by right].
  - unfold rmSync, res_json. eff_unfold. cbn.
    match goal with
    | |- context [deliver evs ?st1 ?w1] =>
        destruct (IH st1 w1) as [Hsame|[Ht _]]; [by left|done]
    end.
  - by left.
  - destruct (timer st) eqn:Htimer; unfold kill; eff_unfold; cbn.
    + match goal with
      | |- context [deliver evs ?st1 ?w1] =>
          destruct (IH st1 w1) as [Hsame|[Ht _]]; [by right|done]
      end.
    + match goal with
      | |- context [deliver evs ?st1 ?w1] =>
          destruct (IH st1 w1) as [Hsame|[Ht _]]; [by left|done]
      end.
Qed.

(** Whatever events come and in whatever order, [SIGKILL] is sent at
    most once to the container, and never once [close] has come: after
    [close] the timer is cleared. *)
Theorem kill_is_sent_at_most_once evs st w :
  (signals (deliver evs st w).2 = signals w ∨
   signals (deliver evs st w).2 = signals w ++ ["SIGKILL"]) ∧
  ∀ code, signals (deliver (EvClose code :: evs) st w).2 = signals w.
Proof.
  split.
  - destruct (deliver_signals evs st w) as [?|[_ ?]]; [by left|by right].
  - intros code. cbn [deliver]. eff_unfold. rewrite on_event_close_spec.
    match goal with
    | |- context [deliver evs ?st1 ?w1] =>
        destruct (deliver_signals evs st1 w1) as [Hsame|[Ht _]]; [done|done]
    end.
Qed.

End RunnerFacts.
